(** * oslo.cache: configuration translation, region configuration,
      key mangling and the Redis Sentinel argument adapter

    A shallow embedding of [oslo_cache/core.py] and
    [oslo_cache/backends/redis.py].

    Conventions of the embedding.
    - A Python [str] handled by the configuration code is a [string]; each
      character stands for one code point below 256.  The key mangler, whose
      behaviour depends on code points outside ASCII, takes its key as a list
      of code points ([list Z]).
    - A Python [dict] with string keys is a [gmap string pyval].
    - A Python exception is a value of [exn]; a computation that may raise
      returns a [result].
    - [core.py] logs and mutates the region it is given: its functions live in
      the monad [M], a state and error monad over [world] (the region object
      and the log written so far). *)

From Stdlib Require Import ZArith String Ascii List DecimalString.
From stdpp Require Import gmap strings list fin_maps.

Local Open Scope string_scope.
Local Open Scope Z_scope.

(** ** Python values and exceptions *)

#[warnings="-register-all"]
Inductive pyval : Type :=
  | VNone
  | VBool (b : bool)
  | VInt (z : Z)
  | VStr (s : string)
  | VList (l : list pyval)
  | VTuple (l : list pyval)
  | VDict (d : gmap string pyval).

(** Truth value of an object, as tested by [if x] and [x and y]. *)
Definition truthy (v : pyval) : bool :=
  match v with
  | VNone => false
  | VBool b => b
  | VInt z => negb (Z.eqb z 0)
  | VStr s => negb (String.eqb s "")
  | VList l | VTuple l => match l with [] => false | _ => true end
  | VDict d => negb (bool_decide (d = ∅))
  end.

Inductive exn : Type :=
  | ValueError
  | KeyError (key : string)
  | AttributeError
  | TypeError
  | UnicodeEncodeError
  | ImportError (class_path : string)
  | ConfigurationError            (* oslo_cache.exception.ConfigurationError *)
  | PluginNotFound (name : string) (* dogpile.cache.exception.PluginNotFound *)
  | RegionAlreadyConfigured.      (* dogpile.cache.exception *)

Inductive result (A : Type) : Type :=
  | Ok (a : A)
  | Raise (e : exn).
Arguments Ok {A} a.
Arguments Raise {A} e.

#[global] Instance result_ret : MRet result := fun A a => Ok a.
#[global] Instance result_bind : MBind result := fun A B k r =>
  match r with
  | Ok a => k a
  | Raise e => Raise e
  end.

(** [d[k]]: subscription raises [KeyError] on a missing key. *)
Definition getitem (d : gmap string pyval) (k : string) : result pyval :=
  match d !! k with
  | Some v => Ok v
  | None => Raise (KeyError k)
  end.

(** [a, b = l]: unpacking into two targets. *)
Definition unpack2 {A} (l : list A) : result (A * A) :=
  match l with
  | [a; b] => Ok (a, b)
  | _ => Raise ValueError
  end.

(** ** String methods *)

(** [partition_first c s] cuts [s] at the first occurrence of [c]. *)
Fixpoint partition_first (c : ascii) (s : string) : option (string * string) :=
  match s with
  | EmptyString => None
  | String a s' =>
      if Ascii.eqb a c then Some (EmptyString, s')
      else match partition_first c s' with
           | Some (l, r) => Some (String a l, r)
           | None => None
           end
  end.

(** [partition_last c s] cuts [s] at the last occurrence of [c]. *)
Fixpoint partition_last (c : ascii) (s : string) : option (string * string) :=
  match s with
  | EmptyString => None
  | String a s' =>
      match partition_last c s' with
      | Some (l, r) => Some (String a l, r)
      | None => if Ascii.eqb a c then Some (EmptyString, s') else None
      end
  end.

(** [s.split(c, 1)] *)
Definition split_once (c : ascii) (s : string) : list string :=
  match partition_first c s with
  | Some (l, r) => [l; r]
  | None => [s]
  end.

(** [s.rsplit(c, 1)] *)
Definition rsplit_once (c : ascii) (s : string) : list string :=
  match partition_last c s with
  | Some (l, r) => [l; r]
  | None => [s]
  end.

(** [s.split(c)] *)
Fixpoint split (c : ascii) (s : string) : list string :=
  match s with
  | EmptyString => [EmptyString]
  | String a s' =>
      if Ascii.eqb a c then EmptyString :: split c s'
      else match split c s' with
           | h :: t => String a h :: t
           | [] => [String a EmptyString]
           end
  end.

(** [c in s] *)
Fixpoint contains (c : ascii) (s : string) : bool :=
  match s with
  | EmptyString => false
  | String a s' => Ascii.eqb a c || contains c s'
  end.

(** ** The builtin [int] on a [str]

    Optional surrounding whitespace, an optional sign, then decimal digits
    in which single underscores may separate digits. *)

Definition is_space (a : ascii) : bool :=
  let n := Z.of_nat (nat_of_ascii a) in
  ((9 <=? n) && (n <=? 13)) || Z.eqb n 32 || Z.eqb n 133 || Z.eqb n 160.

Definition digit_value (a : ascii) : option Z :=
  let n := Z.of_nat (nat_of_ascii a) in
  if (48 <=? n) && (n <=? 57) then Some (n - 48) else None.

Fixpoint lstrip (s : string) : string :=
  match s with
  | String a s' => if is_space a then lstrip s' else s
  | EmptyString => EmptyString
  end.

(** Digits after the first one; [us] tells that the previous character was
    an underscore.  The number may be followed by whitespace only. *)
Fixpoint int_digits (acc : Z) (us : bool) (s : string) : option Z :=
  match s with
  | EmptyString => if us then None else Some acc
  | String a s' =>
      match digit_value a with
      | Some d => int_digits (10 * acc + d) false s'
      | None =>
          if Ascii.eqb a "_"%char then
            if us then None else int_digits acc true s'
          else if us then None
          else if is_space a then
            match lstrip s' with EmptyString => Some acc | _ => None end
          else None
      end
  end.

Definition int_unsigned (s : string) : option Z :=
  match s with
  | String a s' =>
      match digit_value a with
      | Some d => int_digits d false s'
      | None => None
      end
  | EmptyString => None
  end.

Definition py_int (s : string) : option Z :=
  match lstrip s with
  | String "-" s' => Z.opp <$> int_unsigned s'
  | String "+" s' => int_unsigned s'
  | s' => int_unsigned s'
  end.

(** [int(s)] *)
Definition int (s : string) : result Z :=
  match py_int s with
  | Some z => Ok z
  | None => Raise ValueError
  end.

(** [v.split(c)] on an arbitrary object: only a [str] has the method. *)
Definition str_split (v : pyval) (c : ascii) : result (list string) :=
  match v with
  | VStr s => Ok (split c s)
  | _ => Raise AttributeError
  end.

(** [del d[k]] *)
Definition delitem (d : gmap string pyval) (k : string)
  : result (gmap string pyval) :=
  match d !! k with
  | Some _ => Ok (delete k d)
  | None => Raise (KeyError k)
  end.

(** ** oslo_cache/backends/redis.py *)

Module RedisSentinelBackend.

(** The outer comprehension
    [[(host, int(port)) for host, port in pairs]]
    over the already split pairs. *)
Fixpoint sentinel_tuples (pairs : list (list string)) : result (list pyval) :=
  match pairs with
  | [] => Ok []
  | host_port :: rest =>
      '(host, port) ← unpack2 host_port;
      p ← int port;
      l ← sentinel_tuples rest;
      Ok (VTuple [VStr host; VInt p] :: l)
  end.

(** ['ssl' in arguments and arguments['ssl']] *)
Definition ssl_requested (arguments : gmap string pyval) : bool :=
  match arguments !! "ssl" with
  | Some v => truthy v
  | None => false
  end.

(** [RedisSentinelBackend.__init__]: the reshaping of [arguments], up to the
    call of the parent constructor.  The result is the dictionary handed to
    [super().__init__]; an exception raised on the way leaves the
    constructor before that call. *)
Definition __init__ (arguments : gmap string pyval)
  : result (gmap string pyval) :=
  raw ← getitem arguments "sentinels";
  host_ports ← str_split raw ",";
  sentinels ← sentinel_tuples (rsplit_once ":" <$> host_ports);
  username ← getitem arguments "username";
  password ← getitem arguments "password";
  let reformated_kwargs : gmap string pyval :=
    <["password" := password]> (<["username" := username]> ∅) in
  reformated_kwargs ←
    (if ssl_requested arguments then
       ssl ← getitem arguments "ssl";
       ssl_certfile ← getitem arguments "ssl_certfile";
       ssl_keyfile ← getitem arguments "ssl_keyfile";
       ssl_ca_certs ← getitem arguments "ssl_ca_certs";
       Ok (<["ssl_ca_certs" := ssl_ca_certs]>
             (<["ssl_keyfile" := ssl_keyfile]>
                (<["ssl_certfile" := ssl_certfile]>
                   (<["ssl" := ssl]> reformated_kwargs))))
     else Ok reformated_kwargs);
  let arguments :=
    <["sentinel_kwargs" := VDict reformated_kwargs]>
      (<["connection_kwargs" := VDict reformated_kwargs]>
         (<["sentinels" := VList sentinels]> arguments)) in
  arguments ← delitem arguments "username";
  arguments ← delitem arguments "password";
  Ok arguments.

End RedisSentinelBackend.

(** ** UTF-8 encoding with an error handler *)

(** Code points are integers; bytes are integers below 256. *)
Definition is_surrogate (c : Z) : bool := (55296 <=? c) && (c <=? 57343).

Definition ascii_bytes (s : string) : list Z :=
  (λ a, Z.of_nat (nat_of_ascii a)) <$> list_ascii_of_string s.

Definition utf8_char (c : Z) : list Z :=
  if c <? 128 then [c]
  else if c <? 2048 then
    [Z.lor 192 (Z.shiftr c 6); Z.lor 128 (Z.land c 63)]
  else if c <? 65536 then
    [Z.lor 224 (Z.shiftr c 12);
     Z.lor 128 (Z.land (Z.shiftr c 6) 63);
     Z.lor 128 (Z.land c 63)]
  else
    [Z.lor 240 (Z.shiftr c 18);
     Z.lor 128 (Z.land (Z.shiftr c 12) 63);
     Z.lor 128 (Z.land (Z.shiftr c 6) 63);
     Z.lor 128 (Z.land c 63)].

(** The numeric character reference [&#N;] of a code point. *)
Definition xmlcharref (c : Z) : list Z :=
  ascii_bytes ("&#" +:+ NilZero.string_of_uint (N.to_uint (Z.to_N c)) +:+ ";").

Inductive error_handler := strict | xmlcharrefreplace.

(** [s.encode('utf-8', errors=h)]: the handler is consulted only for the
    code points UTF-8 cannot encode, the surrogates. *)
Fixpoint encode_utf8 (h : error_handler) (s : list Z) : result (list Z) :=
  match s with
  | [] => Ok []
  | c :: s' =>
      if is_surrogate c then
        match h with
        | strict => Raise UnicodeEncodeError
        | xmlcharrefreplace =>
            rest ← encode_utf8 h s'; Ok (xmlcharref c ++ rest)%list
        end
      else rest ← encode_utf8 h s'; Ok (utf8_char c ++ rest)%list
  end.

(** ** SHA-1 (FIPS 180-4) and its hexadecimal digest,
       as computed by [hashlib.sha1(key).hexdigest()] *)

Module sha1.

Definition w32 (x : Z) : Z := Z.land x 4294967295.
Definition add32 (x y : Z) : Z := w32 (x + y).
Definition rotl (n x : Z) : Z :=
  w32 (Z.lor (Z.shiftl x n) (Z.shiftr x (32 - n))).

(** Big-endian bytes of [x], [n] of them. *)
Fixpoint be_bytes (n : nat) (x : Z) : list Z :=
  match n with
  | O => []
  | S n' => Z.land (Z.shiftr x (8 * Z.of_nat n')) 255 :: be_bytes n' x
  end.

Definition pad (msg : list Z) : list Z :=
  let len := Z.of_nat (length msg) in
  let zeros := Z.to_nat ((55 - len) mod 64) in
  (msg ++ [128] ++ replicate zeros 0 ++ be_bytes 8 (8 * len))%list.

Fixpoint be_word (bs : list Z) : Z :=
  match bs with
  | [] => 0
  | b :: bs' => Z.lor (Z.shiftl b (8 * Z.of_nat (length bs'))) (be_word bs')
  end.

(** The sixteen words of a 64-byte block. *)
Fixpoint words (n : nat) (block : list Z) : list Z :=
  match n with
  | O => []
  | S n' => be_word (take 4 block) :: words n' (drop 4 block)
  end.

Definition nth_word (w : list Z) (i : nat) : Z := default 0 (w !! i).

(** Message schedule: extends [w] (of length [t]) by [n] more words. *)
Fixpoint schedule (n : nat) (w : list Z) : list Z :=
  match n with
  | O => w
  | S n' =>
      let t := length w in
      let x := Z.lxor (Z.lxor (nth_word w (t - 3)) (nth_word w (t - 8)))
                      (Z.lxor (nth_word w (t - 14)) (nth_word w (t - 16))) in
      schedule n' (w ++ [rotl 1 x])%list
  end.

Record state := State { ha : Z; hb : Z; hc : Z; hd : Z; he : Z }.

Definition f (t : nat) (b c d : Z) : Z :=
  if (t <? 20)%nat then Z.lor (Z.land b c) (Z.land (Z.lxor b 4294967295) d)
  else if (t <? 40)%nat then Z.lxor (Z.lxor b c) d
  else if (t <? 60)%nat then
    Z.lor (Z.lor (Z.land b c) (Z.land b d)) (Z.land c d)
  else Z.lxor (Z.lxor b c) d.

Definition k (t : nat) : Z :=
  if (t <? 20)%nat then 1518500249
  else if (t <? 40)%nat then 1859775393
  else if (t <? 60)%nat then 2400959708
  else 3395469782.

Definition round (t : nat) (wt : Z) (s : state) : state :=
  let tmp := add32 (add32 (add32 (add32 (rotl 5 (ha s))
                                        (f t (hb s) (hc s) (hd s)))
                                 (he s)) (k t)) wt in
  State tmp (ha s) (rotl 30 (hb s)) (hc s) (hd s).

Fixpoint rounds (t : nat) (w : list Z) (s : state) : state :=
  match w with
  | [] => s
  | wt :: w' => rounds (S t) w' (round t wt s)
  end.

Definition compress (h : state) (block : list Z) : state :=
  let s := rounds 0 (schedule 64 (words 16 block)) h in
  State (add32 (ha h) (ha s)) (add32 (hb h) (hb s)) (add32 (hc h) (hc s))
        (add32 (hd h) (hd s)) (add32 (he h) (he s)).

Fixpoint blocks (n : nat) (h : state) (msg : list Z) : state :=
  match n with
  | O => h
  | S n' => blocks n' (compress h (take 64 msg)) (drop 64 msg)
  end.

Definition init : state :=
  State 1732584193 4023233417 2562383102 271733878 3285377520.

Definition digest (msg : list Z) : list Z :=
  let p := pad msg in
  let h := blocks (length p / 64) init p in
  (be_bytes 4 (ha h) ++ be_bytes 4 (hb h) ++ be_bytes 4 (hc h)
     ++ be_bytes 4 (hd h) ++ be_bytes 4 (he h))%list.

Definition hex_digit (n : Z) : ascii :=
  ascii_of_nat (Z.to_nat (if n <? 10 then 48 + n else 87 + n)).

Fixpoint hex (bs : list Z) : string :=
  match bs with
  | [] => EmptyString
  | b :: bs' =>
      String (hex_digit (Z.shiftr b 4)) (String (hex_digit (Z.land b 15)) (hex bs'))
  end.

Definition hexdigest (msg : list Z) : string := hex (digest msg).

End sha1.

(** ** oslo_cache/core.py *)

(** The options of the [[cache]] group that this module reads.  The types of
    the legacy memcache options are declared in [_opts.py]; the translator
    only copies their values, so they are kept as arbitrary values. *)
Record CacheOpts := {
  config_prefix : string;
  backend : string;
  expiration_time : pyval;
  backend_argument : list string;
  proxies : list string;
  debug_cache_backend : bool;
  enabled : bool;
  memcache_servers : pyval;
  memcache_dead_retry : pyval;
  memcache_socket_timeout : pyval;
  memcache_pool_maxsize : pyval;
  memcache_pool_unused_timeout : pyval;
  memcache_pool_connection_get_timeout : pyval
}.

(** The configuration object: the [[cache]] group, and for every other
    registered group the options read by [getattr(conf_group, name, default)]. *)
Record ConfigOpts := {
  cache : CacheOpts;
  groups : gmap string (gmap string pyval)
}.

(** [getattr(conf, group)] *)
Definition getattr_group (conf : ConfigOpts) (group : string)
  : result (gmap string pyval) :=
  match groups conf !! group with
  | Some g => Ok g
  | None => Raise AttributeError
  end.

(** [getattr(conf.cache, 'memcache_' + arg)] *)
Definition getattr_memcache (c : CacheOpts) (arg : string) : result pyval :=
  if decide (arg = "servers") then Ok (memcache_servers c)
  else if decide (arg = "dead_retry") then Ok (memcache_dead_retry c)
  else if decide (arg = "socket_timeout") then Ok (memcache_socket_timeout c)
  else if decide (arg = "pool_maxsize") then Ok (memcache_pool_maxsize c)
  else if decide (arg = "pool_unused_timeout")
    then Ok (memcache_pool_unused_timeout c)
  else if decide (arg = "pool_connection_get_timeout")
    then Ok (memcache_pool_connection_get_timeout c)
  else Raise AttributeError.

(** [sep.join(l)] *)
Fixpoint join (sep : string) (l : list string) : string :=
  match l with
  | [] => ""
  | [s] => s
  | s :: l' => s +:+ sep +:+ join sep l'
  end.

(** *** The key mangler *)

Inductive key :=
  | KStr (s : list Z)      (* a str, as code points *)
  | KBytes (b : list Z)    (* a bytes object *)
  | KOther (v : pyval).    (* anything else *)

(** [key.encode('utf-8', errors='xmlcharrefreplace')] *)
Definition key_encode (k : key) : result key :=
  match k with
  | KStr s => b ← encode_utf8 xmlcharrefreplace s; Ok (KBytes b)
  | _ => Raise AttributeError
  end.

(** dogpile's [util.sha1_mangle_key]: [sha1(key).hexdigest()]. *)
Definition sha1_mangle_key (k : key) : result string :=
  match k with
  | KBytes b => Ok (sha1.hexdigest b)
  | _ => Raise TypeError
  end.

Definition _sha1_mangle_key (k : key) : result string :=
  k ← match key_encode k with
      | Ok k' => Ok k'
      | Raise UnicodeEncodeError | Raise AttributeError =>
          Ok k   (* if encoding fails just continue anyway *)
      | Raise e => Raise e
      end;
  sha1_mangle_key k.

(** *** The collaborators of region configuration

    [dogpile.cache.CacheRegion], its backend registry and
    [oslo_utils.importutils] are external; they are modelled as far as
    [configure_cache_region] uses them. *)

Inductive proxy_class :=
  | _DebugProxy                       (* defined in core.py *)
  | Imported (class_path : string).   (* a class found by import_class *)

(** A backend object: an instance made by a registered backend class, or a
    proxy instance holding the object it proxies. *)
Inductive backend_obj :=
  | Backend (name : string) (arguments : gmap string pyval)
  | Proxy (cls : proxy_class) (proxied : backend_obj).

Module dogpile.

Record CacheRegion := {
  backend : option backend_obj;       (* absent until configured *)
  key_mangler : option (key → result string);
  expiration_time : pyval
}.

Definition is_configured (r : CacheRegion) : bool :=
  match backend r with Some _ => true | None => false end.

(** A registered backend class: its constructor, which receives the
    arguments sub-namespace and may raise, and the key mangler the backend
    prefers, if any. *)
Record backend_class := {
  cls_init : gmap string pyval → result (gmap string pyval);
  cls_key_mangler : option (key → result string)
}.

End dogpile.

(** What the process offers besides the region: the backend registry, and
    the importable classes (with whether each is a [ProxyBackend]). *)
Record environment := {
  registry : gmap string dogpile.backend_class;
  classes : gmap string bool
}.

Inductive event :=
  | LogError (argument : string)
      (* 'Unable to build cache config-key. ... Skipping unknown format: %s' *)
  | LogDebugConfig (conf_dict : gmap string pyval)
      (* 'Oslo Cache Config: %s' *)
  | LogDebugProxy (class_path : string)
      (* "Adding cache-proxy '%s' to backend." *)
  | Instantiate (name : string) (arguments : gmap string pyval).
      (* the constructor of a backend class is called *)

(** The mutable state: the region object and the events so far. *)
Record world := World {
  region_obj : dogpile.CacheRegion;
  events : list event
}.

Definition M (A : Type) : Type := world → world * result A.

#[global] Instance M_ret : MRet M := fun A a w => (w, Ok a).
#[global] Instance M_bind : MBind M := fun A B k m w =>
  match m w with
  | (w', Ok a) => k a w'
  | (w', Raise e) => (w', Raise e)
  end.

Definition raise {A} (e : exn) : M A := fun w => (w, Raise e).
Definition lift {A} (r : result A) : M A := fun w => (w, r).
Definition emit (ev : event) : M unit :=
  fun w => (World (region_obj w) (events w ++ [ev])%list, Ok tt).
Definition get_region : M dogpile.CacheRegion :=
  fun w => (w, Ok (region_obj w)).
Definition set_region (r : dogpile.CacheRegion) : M unit :=
  fun w => (World r (events w), Ok tt).

(** [d.setdefault(k, v)] *)
Definition setdefault (k : string) (v : pyval) (d : gmap string pyval)
  : gmap string pyval :=
  match d !! k with
  | Some _ => d
  | None => <[k := v]> d
  end.

(** *** [_build_cache_config] *)

(** The loop over [conf.cache.backend_argument]; the [except ValueError]
    clause logs the entry and continues with the next one. *)
Fixpoint backend_arguments (prefix : string) (arguments : list string)
    (conf_dict : gmap string pyval) : M (gmap string pyval) :=
  match arguments with
  | [] => mret conf_dict
  | argument :: rest =>
      match unpack2 (split_once ":" argument) with
      | Ok (argname, argvalue) =>
          let arg_key := join "." [prefix; "arguments"; argname] in
          let conf_dict := <[arg_key := VStr argvalue]> conf_dict in
          emit (LogDebugConfig conf_dict);;
          backend_arguments prefix rest conf_dict
      | Raise ValueError =>
          emit (LogError argument);;
          backend_arguments prefix rest conf_dict
      | Raise e => raise e
      end
  end.

(** The loop over the names of the memcache options. *)
Fixpoint memcache_arguments (c : CacheOpts) (prefix : string)
    (args : list string) (conf_dict : gmap string pyval)
  : M (gmap string pyval) :=
  match args with
  | [] => mret conf_dict
  | arg :: rest =>
      value ← lift (getattr_memcache c arg);
      memcache_arguments c prefix rest
        (<[prefix +:+ ".arguments." +:+ arg := value]> conf_dict)
  end.

Definition memcache_args : list string :=
  ["dead_retry"; "socket_timeout"; "pool_maxsize"; "pool_unused_timeout";
   "pool_connection_get_timeout"].

Definition _build_cache_config (conf : ConfigOpts) : M (gmap string pyval) :=
  let prefix := config_prefix (cache conf) in
  let conf_dict : gmap string pyval := ∅ in
  let conf_dict :=
    <[prefix +:+ ".backend" := VStr (backend (cache conf))]> conf_dict in
  let conf_dict :=
    <[prefix +:+ ".expiration_time" := expiration_time (cache conf)]>
      conf_dict in
  conf_dict ← backend_arguments prefix (backend_argument (cache conf))
                                conf_dict;
  let conf_dict :=
    setdefault (prefix +:+ ".arguments.url") (memcache_servers (cache conf))
               conf_dict in
  conf_dict ← memcache_arguments (cache conf) prefix memcache_args conf_dict;
  mret conf_dict.

(** *** dogpile's region methods and [import_class] *)

Fixpoint strip_prefix (p s : string) : option string :=
  match p, s with
  | EmptyString, _ => Some s
  | String a p', String b s' => if Ascii.eqb a b then strip_prefix p' s' else None
  | String _ _, EmptyString => None
  end.

(** The entries of [d] whose key starts with [p], with [p] removed. *)
Definition sub_namespace (p : string) (d : gmap string pyval)
  : gmap string pyval :=
  list_to_map
    (omap (λ kv, (λ k', (k', kv.2)) <$> strip_prefix p kv.1) (map_to_list d)).

(** [region.configure_from_config(config_dict, prefix)]: refuses a configured
    region, resolves the backend name in the registry, calls the backend's
    constructor on its arguments sub-namespace, and takes over the backend's
    key mangler. *)
Definition configure_from_config (env : environment)
    (config_dict : gmap string pyval) (prefix : string) : M unit :=
  r ← get_region;
  if dogpile.is_configured r then raise RegionAlreadyConfigured
  else
    name ← lift (getitem config_dict (prefix +:+ "backend"));
    match name with
    | VStr name =>
        match registry env !! name with
        | None => raise (PluginNotFound name)
        | Some cls =>
            let arguments :=
              sub_namespace (prefix +:+ "arguments.") config_dict in
            emit (Instantiate name arguments);;
            arguments ← lift (dogpile.cls_init cls arguments);
            set_region
              {| dogpile.backend := Some (Backend name arguments);
                 dogpile.key_mangler := dogpile.cls_key_mangler cls;
                 dogpile.expiration_time :=
                   default VNone
                     (config_dict !! (prefix +:+ "expiration_time")) |}
        end
    | _ => raise TypeError
    end.

Definition is_proxy_backend (env : environment) (cls : proxy_class) : bool :=
  match cls with
  | _DebugProxy => true
  | Imported class_path => default false (classes env !! class_path)
  end.

(** [region.wrap(cls)]: the new proxy instance proxies the current backend
    and becomes the region's backend. *)
Definition wrap (env : environment) (cls : proxy_class) : M unit :=
  if is_proxy_backend env cls then
    r ← get_region;
    match dogpile.backend r with
    | Some b =>
        set_region
          {| dogpile.backend := Some (Proxy cls b);
             dogpile.key_mangler := dogpile.key_mangler r;
             dogpile.expiration_time := dogpile.expiration_time r |}
    | None => raise AttributeError
    end
  else raise TypeError.

(** [importutils.import_class(class_path)] *)
Definition import_class (env : environment) (class_path : string)
  : M proxy_class :=
  match classes env !! class_path with
  | Some _ => mret (Imported class_path)
  | None => raise (ImportError class_path)
  end.

(** *** [configure_cache_region] *)

(** The object passed as [region]: the region object of the world, or some
    object that is not a [CacheRegion]. *)
Inductive pyobj :=
  | region_ref
  | other (v : pyval).

(** The loop over [conf.cache.proxies]. *)
Fixpoint wrap_proxies (env : environment) (class_paths : list string)
  : M unit :=
  match class_paths with
  | [] => mret tt
  | class_path :: rest =>
      cls ← import_class env class_path;
      emit (LogDebugProxy class_path);;
      wrap env cls;;
      wrap_proxies env rest
  end.

Definition configure_cache_region (env : environment) (conf : ConfigOpts)
    (region : pyobj) : M pyobj :=
  match region with
  | other _ => raise ConfigurationError
  | region_ref =>
      r ← get_region;
      (if negb (dogpile.is_configured r) then
         config_dict ← _build_cache_config conf;
         configure_from_config env config_dict
           (config_prefix (cache conf) +:+ ".");;
         (if debug_cache_backend (cache conf) then wrap env _DebugProxy
          else mret tt);;
         r ← get_region;
         match dogpile.key_mangler r with
         | None =>
             set_region
               {| dogpile.backend := dogpile.backend r;
                  dogpile.key_mangler := Some _sha1_mangle_key;
                  dogpile.expiration_time := dogpile.expiration_time r |}
         | Some _ => mret tt
         end;;
         wrap_proxies env (proxies (cache conf))
       else mret tt);;
      mret region_ref
  end.



(** *** [_get_should_cache_fn] *)

(** The closure [should_cache] built by [_get_should_cache_fn]. *)
Definition should_cache (conf : ConfigOpts) (group : string) (value : pyval)
  : result pyval :=
  if negb (enabled (cache conf)) then Ok (VBool false)
  else
    conf_group ← getattr_group conf group;
    Ok (default (VBool true) (conf_group !! "caching")).

Definition _get_should_cache_fn (conf : ConfigOpts) (group : string)
  : pyval → result pyval :=
  should_cache conf group.

(** ** Notions used to state the properties *)

(** The value that the [backend_argument] list supplies for [argname]: the
    text after the first colon of the last entry whose text before its first
    colon is [argname]. *)
Fixpoint supplied (arguments : list string) (argname : string)
  : option string :=
  match arguments with
  | [] => None
  | argument :: rest =>
      match supplied rest argname with
      | Some v => Some v
      | None =>
          match partition_first ":" argument with
          | Some (n, v) => if decide (n = argname) then Some v else None
          | None => None
          end
      end
  end.

(** An entry of [backend_argument] is well formed when it has a colon. *)
Definition well_formed (argument : string) : Prop :=
  contains ":" argument = true.

(** The value found under [<prefix>.arguments.<argname>] in the resolved
    dictionary: a legacy memcache option for the five names of
    [memcache_args]; otherwise what [backend_argument] supplies, and for
    [url] alone [memcache_servers] when nothing is supplied. *)
Definition resolved_argument (c : CacheOpts) (argname : string)
  : option pyval :=
  if decide (argname ∈ memcache_args) then
    match getattr_memcache c argname with
    | Ok v => Some v
    | Raise _ => None
    end
  else
    match supplied (backend_argument c) argname with
    | Some v => Some (VStr v)
    | None =>
        if decide (argname = "url") then Some (memcache_servers c) else None
    end.

#[global] Instance well_formed_dec (argument : string) :
  Decision (well_formed argument).
Proof. unfold well_formed. apply _. Defined.

(** The first field that [RedisSentinelBackend.__init__] subscripts and
    the dictionary lacks, the list of sentinels apart. *)
Definition missing_field (arguments : gmap string pyval) : option string :=
  head (filter (λ k, arguments !! k = None)
          ("username" :: "password" ::
           (if RedisSentinelBackend.ssl_requested arguments
            then ["ssl_certfile"; "ssl_keyfile"; "ssl_ca_certs"] else []))).


(** One sentinel entry [host:port] and the tuple it stands for. *)
Definition sentinel_entry (host_port : string) (t : pyval) : Prop :=
  ∃ host port n,
    partition_last ":" host_port = Some (host, port) ∧
    py_int port = Some n ∧ t = VTuple [VStr host; VInt n].

(** An entry the sentinel adapter cannot read: no colon, or no integer
    after the last colon. *)
Definition bad_sentinel_entry (host_port : string) : Prop :=
  contains ":" host_port = false ∨
  ∃ host port, partition_last ":" host_port = Some (host, port) ∧
               py_int port = None.

(** The wording of the specification for the key mangler's first step: every
    code point outside ASCII becomes a numeric character reference. *)
Definition spec_escape_non_ascii (s : list Z) : list Z :=
  flat_map (λ c, if c <? 128 then [c] else xmlcharref c) s.

(** ** Concrete inputs *)

Definition empty_region : dogpile.CacheRegion :=
  {| dogpile.backend := None; dogpile.key_mangler := None;
     dogpile.expiration_time := VNone |}.

Definition fresh_world : world := World empty_region [].

Definition default_cache_opts : CacheOpts :=
  {| config_prefix := "cache";
     backend := "dogpile.cache.null";
     expiration_time := VInt 600;
     backend_argument := [];
     proxies := [];
     debug_cache_backend := false;
     enabled := true;
     memcache_servers := VList [VStr "localhost:11211"];
     memcache_dead_retry := VInt 300;
     memcache_socket_timeout := VInt 3;
     memcache_pool_maxsize := VInt 10;
     memcache_pool_unused_timeout := VInt 60;
     memcache_pool_connection_get_timeout := VInt 10 |}.

Definition with_backend_argument (l : list string) (c : CacheOpts)
  : CacheOpts :=
  {| config_prefix := config_prefix c;
     backend := backend c;
     expiration_time := expiration_time c;
     backend_argument := l;
     proxies := proxies c;
     debug_cache_backend := debug_cache_backend c;
     enabled := enabled c;
     memcache_servers := memcache_servers c;
     memcache_dead_retry := memcache_dead_retry c;
     memcache_socket_timeout := memcache_socket_timeout c;
     memcache_pool_maxsize := memcache_pool_maxsize c;
     memcache_pool_unused_timeout := memcache_pool_unused_timeout c;
     memcache_pool_connection_get_timeout :=
       memcache_pool_connection_get_timeout c |}.

Definition conf_of (c : CacheOpts) : ConfigOpts :=
  {| cache := c; groups := ∅ |}.

Definition with_proxies (debug : bool) (l : list string) (c : CacheOpts)
  : CacheOpts :=
  {| config_prefix := config_prefix c;
     backend := backend c;
     expiration_time := expiration_time c;
     backend_argument := backend_argument c;
     proxies := l;
     debug_cache_backend := debug;
     enabled := enabled c;
     memcache_servers := memcache_servers c;
     memcache_dead_retry := memcache_dead_retry c;
     memcache_socket_timeout := memcache_socket_timeout c;
     memcache_pool_maxsize := memcache_pool_maxsize c;
     memcache_pool_unused_timeout := memcache_pool_unused_timeout c;
     memcache_pool_connection_get_timeout :=
       memcache_pool_connection_get_timeout c |}.

(** The configuration with the malformed [backend_argument] entries left
    out. *)
Definition drop_malformed (conf : ConfigOpts) : ConfigOpts :=
  {| cache := with_backend_argument
                (filter well_formed (backend_argument (cache conf)))
                (cache conf);
     groups := groups conf |}.

(** [backend_argument = dead_retry:5] next to the legacy option
    [memcache_dead_retry = 300]. *)
Definition conf_dead_retry : ConfigOpts :=
  conf_of (with_backend_argument ["dead_retry:5"] default_cache_opts).

(** Two well-formed entries with one name. *)
Definition conf_duplicate : ConfigOpts :=
  conf_of (with_backend_argument ["a:1"; "a:2"] default_cache_opts).

(** A configuration with a group [identity] that turns caching off and a
    group [catalog] that does not define [caching]. *)
Definition conf_groups (enabled_flag : bool) : ConfigOpts :=
  {| cache :=
       {| config_prefix := "cache";
          backend := "dogpile.cache.null";
          expiration_time := VInt 600;
          backend_argument := [];
          proxies := [];
          debug_cache_backend := false;
          enabled := enabled_flag;
          memcache_servers := VList [VStr "localhost:11211"];
          memcache_dead_retry := VInt 300;
          memcache_socket_timeout := VInt 3;
          memcache_pool_maxsize := VInt 10;
          memcache_pool_unused_timeout := VInt 60;
          memcache_pool_connection_get_timeout := VInt 10 |};
     groups :=
       <["identity" := {["caching" := VBool false]}]>
         (<["catalog" := ∅]> ∅) |}.

(** A backend class whose constructor keeps its arguments and which has no
    key mangler of its own, and a process where it is registered and two
    proxy classes can be imported. *)
Definition null_backend_class : dogpile.backend_class :=
  {| dogpile.cls_init := λ a, Ok a; dogpile.cls_key_mangler := None |}.

Definition example_env : environment :=
  {| registry := {["dogpile.cache.null" := null_backend_class]};
     classes := <["pkg.Outer" := true]> {["pkg.Inner" := true]} |}.

Definition conf_proxies : ConfigOpts :=
  conf_of (with_proxies true ["pkg.Inner"; "pkg.Outer"] default_cache_opts).

Definition conf_unknown_backend : ConfigOpts :=
  conf_of
    {| config_prefix := "cache";
       backend := "no.such.backend";
       expiration_time := VInt 600;
       backend_argument := [];
       proxies := [];
       debug_cache_backend := false;
       enabled := true;
       memcache_servers := VList [VStr "localhost:11211"];
       memcache_dead_retry := VInt 300;
       memcache_socket_timeout := VInt 3;
       memcache_pool_maxsize := VInt 10;
       memcache_pool_unused_timeout := VInt 60;
       memcache_pool_connection_get_timeout := VInt 10 |}.

Definition sentinel_arguments : gmap string pyval :=
  <["sentinels" := VStr "10.0.0.1:26379,10.0.0.2:26379"]>
    (<["username" := VStr "u"]> (<["password" := VStr "p"]> ∅)).

(** ** Further code of [core.py] *)

(** *** [_get_expiration_time_fn] *)

(** The closure [get_expiration_time] built by [_get_expiration_time_fn]. *)
Definition get_expiration_time (conf : ConfigOpts) (group : string)
  : result pyval :=
  conf_group ← getattr_group conf group;
  Ok (default VNone (conf_group !! "cache_time")).

Definition _get_expiration_time_fn (conf : ConfigOpts) (group : string)
  : unit → result pyval :=
  fun _ => get_expiration_time conf group.

(** *** [get_memoization_decorator]

    The decorator itself is made by dogpile's [region.cache_on_arguments];
    what this module decides is which two functions it is given and which
    are attached to it as attributes, the same two. *)
Module memoize.
Record t := {
  should_cache : pyval → result pyval;
  get_expiration_time : unit → result pyval
}.
End memoize.

Definition get_memoization_decorator (conf : ConfigOpts) (group : string)
    (expiration_group : option string) : memoize.t :=
  let expiration_group :=
    match expiration_group with
    | None => group
    | Some g => g
    end in
  let should_cache := _get_should_cache_fn conf group in
  let expiration_time := _get_expiration_time_fn conf expiration_group in
  {| memoize.should_cache := should_cache;
     memoize.get_expiration_time := expiration_time |}.

(** *** The backend registration of [configure] *)

Definition _BACKENDS : list (string * string * string) :=
  [("oslo_cache.noop", "oslo_cache.backends.noop", "NoopCacheBackend");
   ("oslo_cache.mongo", "oslo_cache.backends.mongo", "MongoCacheBackend");
   ("oslo_cache.memcache_pool", "oslo_cache.backends.memcache_pool",
    "PooledMemcachedBackend");
   ("oslo_cache.dict", "oslo_cache.backends.dictionary",
    "DictCacheBackend")].

(** [dogpile.cache.register_backend(name, modulepath, objname)]: the loader
    remembers under [name] where the class is to be found. *)
Definition register_backend (name modulepath objname : string)
    (loader : gmap string (string * string)) : gmap string (string * string) :=
  <[name := (modulepath, objname)]> loader.

(** The loop [for backend in _BACKENDS] of [configure]. *)
Definition register_backends (loader : gmap string (string * string))
  : gmap string (string * string) :=
  foldl (λ loader b, register_backend b.1.1 b.1.2 b.2 loader) loader
        _BACKENDS.

(** *** [_DebugProxy]

    A backend offers six operations; each acts on the backend's state, may
    raise, and may write debug records.  The log is written, never read. *)
Inductive debug_record :=
  | CACHE_GET (key value : pyval)
  | CACHE_GET_MULTI (keys values : pyval)
  | CACHE_SET (key value : pyval)
  | CACHE_SET_MULTI (keys : pyval)
  | CACHE_DELETE (key : pyval)
  | CACHE_DELETE_MULTI (keys : pyval).

Record outcome (S A : Type) := Outcome {
  logged : list debug_record;
  state_after : S;
  returned : result A
}.
Arguments Outcome {S A} logged state_after returned.
Arguments logged {S A} o.
Arguments state_after {S A} o.
Arguments returned {S A} o.

Definition B (S A : Type) : Type := S → outcome S A.

Definition B_ret {S A} (a : A) : B S A := fun st => Outcome [] st (Ok a).

Definition B_bind {S A A'} (m : B S A) (k : A → B S A') : B S A' :=
  fun st =>
    let o := m st in
    match returned o with
    | Ok a =>
        let o' := k a (state_after o) in
        Outcome (logged o ++ logged o')%list (state_after o') (returned o')
    | Raise e => Outcome (logged o) (state_after o) (Raise e)
    end.

(** [_LOG.debug(...)] *)
Definition _LOG_debug {S} (r : debug_record) : B S unit :=
  fun st => Outcome [r] st (Ok tt).

Module CacheBackend.
Record api (S : Type) := {
  get : pyval → B S pyval;
  get_multi : pyval → B S pyval;
  set : pyval → pyval → B S pyval;
  set_multi : pyval → B S pyval;
  delete : pyval → B S pyval;
  delete_multi : pyval → B S pyval
}.
Arguments get {S} a key.
Arguments get_multi {S} a keys.
Arguments set {S} a key value.
Arguments set_multi {S} a keys.
Arguments delete {S} a key.
Arguments delete_multi {S} a keys.
End CacheBackend.

Module DebugProxy.

Definition get {S} (proxied : CacheBackend.api S) (key : pyval) : B S pyval :=
  B_bind (CacheBackend.get proxied key) (fun value =>
  B_bind (_LOG_debug (CACHE_GET key value)) (fun _ =>
  B_ret value)).

Definition get_multi {S} (proxied : CacheBackend.api S) (keys : pyval)
  : B S pyval :=
  B_bind (CacheBackend.get_multi proxied keys) (fun values =>
  B_bind (_LOG_debug (CACHE_GET_MULTI keys values)) (fun _ =>
  B_ret values)).

Definition set {S} (proxied : CacheBackend.api S) (key value : pyval)
  : B S pyval :=
  B_bind (_LOG_debug (CACHE_SET key value)) (fun _ =>
  CacheBackend.set proxied key value).

Definition set_multi {S} (proxied : CacheBackend.api S) (keys : pyval)
  : B S pyval :=
  B_bind (_LOG_debug (CACHE_SET_MULTI keys)) (fun _ =>
  B_bind (CacheBackend.set_multi proxied keys) (fun _ =>
  B_ret VNone)).

Definition delete {S} (proxied : CacheBackend.api S) (key : pyval)
  : B S pyval :=
  B_bind (CacheBackend.delete proxied key) (fun _ =>
  B_bind (_LOG_debug (CACHE_DELETE key)) (fun _ =>
  B_ret VNone)).

Definition delete_multi {S} (proxied : CacheBackend.api S) (keys : pyval)
  : B S pyval :=
  B_bind (_LOG_debug (CACHE_DELETE_MULTI keys)) (fun _ =>
  B_bind (CacheBackend.delete_multi proxied keys) (fun _ =>
  B_ret VNone)).

(** The proxy instance as a backend of its own. *)
Definition wrap {S} (proxied : CacheBackend.api S) : CacheBackend.api S :=
  {| CacheBackend.get := get proxied;
     CacheBackend.get_multi := get_multi proxied;
     CacheBackend.set := set proxied;
     CacheBackend.set_multi := set_multi proxied;
     CacheBackend.delete := delete proxied;
     CacheBackend.delete_multi := delete_multi proxied |}.

End DebugProxy.

(** ** Further notions used to state the properties *)

(** The entries reported by [_LOG.error] among the events. *)
Definition error_log (evs : list event) : list string :=
  omap (λ ev, match ev with LogError a => Some a | _ => None end) evs.



(** What a proxied call amounts to once the value it returns is replaced by
    [None]. *)
Definition returned_None (r : result pyval) : result pyval :=
  match r with
  | Ok _ => Ok VNone
  | Raise e => Raise e
  end.

(** A dictionary backend for the examples: the state is the stored map from
    text keys, and a missing key reads as [None]. *)
Definition dict_get (key : pyval) : B (gmap string pyval) pyval :=
  fun st =>
    match key with
    | VStr k => Outcome [] st (Ok (default VNone (st !! k)))
    | _ => Outcome [] st (Raise TypeError)
    end.

Definition dict_set (key value : pyval) : B (gmap string pyval) pyval :=
  fun st =>
    match key with
    | VStr k => Outcome [] (<[k := value]> st) (Ok VNone)
    | _ => Outcome [] st (Raise TypeError)
    end.

Definition dict_delete (key : pyval) : B (gmap string pyval) pyval :=
  fun st =>
    match key with
    | VStr k => Outcome [] (base.delete k st) (Ok VNone)
    | _ => Outcome [] st (Raise TypeError)
    end.

Definition dict_unsupported (keys : pyval) : B (gmap string pyval) pyval :=
  fun st => Outcome [] st (Raise TypeError).

Definition dict_backend : CacheBackend.api (gmap string pyval) :=
  {| CacheBackend.get := dict_get;
     CacheBackend.get_multi := dict_unsupported;
     CacheBackend.set := dict_set;
     CacheBackend.set_multi := dict_unsupported;
     CacheBackend.delete := dict_delete;
     CacheBackend.delete_multi := dict_unsupported |}.



(** The lower-case hexadecimal digits. *)
Definition hex_alphabet : list ascii :=
  list_ascii_of_string "0123456789abcdef".

(** A configuration with caching enabled, a group [identity] with a
    [cache_time] and a group [token] that turns caching off. *)
Definition conf_cache_time : ConfigOpts :=
  {| cache := default_cache_opts;
     groups :=
       <["identity" := {["cache_time" := VInt 60]}]>
         (<["token" := {["caching" := VBool false]}]> ∅) |}.

(** * Properties *)

(** ** Strings *)

Lemma append_cons (a : ascii) (s t : string) :
  String a s +:+ t = String a (s +:+ t).
Proof. reflexivity. Qed.

Lemma append_nil (t : string) : "" +:+ t = t.
Proof. reflexivity. Qed.

Lemma append_inj_l (p a b : string) : p +:+ a = p +:+ b → a = b.
Proof. apply String.app_inj. Qed.

Lemma append_assoc (a b c : string) : (a +:+ b) +:+ c = a +:+ (b +:+ c).
Proof.
  induction a as [|x a IH]; [done|].
  rewrite !append_cons. by f_equal.
Qed.

Lemma partition_first_Some (c : ascii) (s l r : string) :
  partition_first c s = Some (l, r) ↔
  s = l +:+ String c r ∧ contains c l = false.
Proof.
  revert l. induction s as [|a s IH]; intros l; simpl.
  - split; [done|]. intros [H _]. by destruct l.
  - destruct (Ascii.eqb_spec a c) as [->|Hne].
    + split.
      * intros [= <- <-]. done.
      * intros [H Hc]. destruct l as [|x l].
        -- rewrite append_nil in H. by injection H as ->.
        -- rewrite append_cons in H. injection H as <- ->.
           simpl in Hc. by rewrite Ascii.eqb_refl in Hc.
    + destruct (partition_first c s) as [[l' r']|] eqn:E.
      * split.
        -- intros [= <- <-]. destruct (IH l') as [IH1 _].
           destruct (IH1 eq_refl) as [-> Hc]. rewrite append_cons. simpl.
           split; [done|]. rewrite Hc.
           by destruct (Ascii.eqb_spec a c).
        -- intros [H Hc]. destruct l as [|x l].
           ++ rewrite append_nil in H. injection H as H1 H2. by destruct Hne.
           ++ rewrite append_cons in H. injection H as <- ->.
              simpl in Hc. apply orb_false_iff in Hc as [_ Hc].
              destruct (IH l) as [_ IH2].
              specialize (IH2 (conj eq_refl Hc)). by injection IH2 as -> ->.
      * split; [done|]. intros [H Hc]. destruct l as [|x l].
        -- rewrite append_nil in H. injection H as H1 H2. by destruct Hne.
        -- rewrite append_cons in H. injection H as <- ->.
           simpl in Hc. apply orb_false_iff in Hc as [_ Hc].
           destruct (IH l) as [_ IH2]. by specialize (IH2 (conj eq_refl Hc)).
Qed.

Lemma partition_first_None (c : ascii) (s : string) :
  partition_first c s = None ↔ contains c s = false.
Proof.
  induction s as [|a s IH]; simpl; [done|].
  destruct (Ascii.eqb a c); simpl; [done|].
  destruct (partition_first c s) as [[l r]|]; [|tauto].
  split; [done|]. intros H. apply IH in H. done.
Qed.

Lemma partition_last_None (c : ascii) (s : string) :
  partition_last c s = None ↔ contains c s = false.
Proof.
  induction s as [|a s IH]; simpl; [done|].
  destruct (partition_last c s) as [[l r]|].
  - split; [done|]. intros H. apply orb_false_iff in H as [_ H].
    apply IH in H. done.
  - destruct (Ascii.eqb a c); simpl; [done|]. tauto.
Qed.



(** ** The Redis Sentinel adapter *)

Lemma result_bind_Ok {A B} (a : A) (k : A → result B) :
  (Ok a ≫= k) = k a.
Proof. reflexivity. Qed.

Lemma result_bind_Raise {A B} (e : exn) (k : A → result B) :
  (Raise e ≫= k) = Raise e.
Proof. reflexivity. Qed.

Lemma getitem_Some (d : gmap string pyval) (k : string) (v : pyval) :
  d !! k = Some v → getitem d k = Ok v.
Proof. unfold getitem. by intros ->. Qed.

Lemma getitem_None (d : gmap string pyval) (k : string) :
  d !! k = None → getitem d k = Raise (KeyError k).
Proof. unfold getitem. by intros ->. Qed.

Lemma rsplit_once_Some (c : ascii) (s l r : string) :
  partition_last c s = Some (l, r) → rsplit_once c s = [l; r].
Proof. unfold rsplit_once. by intros ->. Qed.

Lemma rsplit_once_None (c : ascii) (s : string) :
  partition_last c s = None → rsplit_once c s = [s].
Proof. unfold rsplit_once. by intros ->. Qed.

Lemma int_Some (s : string) (n : Z) : py_int s = Some n → int s = Ok n.
Proof. unfold int. by intros ->. Qed.

Lemma int_None (s : string) : py_int s = None → int s = Raise ValueError.
Proof. unfold int. by intros ->. Qed.

Lemma sentinel_tuples_ok (host_ports : list string) (tuples : list pyval) :
  Forall2 sentinel_entry host_ports tuples →
  RedisSentinelBackend.sentinel_tuples (rsplit_once ":" <$> host_ports)
  = Ok tuples.
Proof.
  induction 1 as [|hp t hps ts (host & port & n & Hp & Hn & ->) _ IH];
    [done|].
  rewrite fmap_cons. simpl. rewrite (rsplit_once_Some _ _ _ _ Hp). simpl.
  rewrite (int_Some _ _ Hn), result_bind_Ok, IH. done.
Qed.

Lemma sentinel_tuples_bad (host_ports : list string) :
  Exists bad_sentinel_entry host_ports →
  RedisSentinelBackend.sentinel_tuples (rsplit_once ":" <$> host_ports)
  = Raise ValueError.
Proof.
  induction 1 as [hp hps Hbad|hp hps _ IH]; rewrite fmap_cons; simpl.
  - destruct Hbad as [Hc|(host & port & Hp & Hn)].
    + apply partition_last_None in Hc. by rewrite (rsplit_once_None _ _ Hc).
    + rewrite (rsplit_once_Some _ _ _ _ Hp). simpl.
      by rewrite (int_None _ Hn).
  - destruct (partition_last ":" hp) as [[host port]|] eqn:Hp.
    + rewrite (rsplit_once_Some _ _ _ _ Hp). simpl.
      destruct (py_int port) as [n|] eqn:Hn.
      * rewrite (int_Some _ _ Hn), result_bind_Ok, IH. done.
      * by rewrite (int_None _ Hn).
    + by rewrite (rsplit_once_None _ _ Hp).
Qed.

(** Every entry between the commas is either readable or bad. *)
Lemma sentinel_entry_or_bad (host_port : string) :
  (∃ t, sentinel_entry host_port t) ∨ bad_sentinel_entry host_port.
Proof.
  destruct (partition_last ":" host_port) as [[host port]|] eqn:Hp.
  - destruct (py_int port) as [n|] eqn:Hn.
    + left. exists (VTuple [VStr host; VInt n]). by exists host, port, n.
    + right. right. by exists host, port.
  - right. left. by apply partition_last_None.
Qed.

(** C10: an entry of the sentinels string without a colon, or whose text
    after the last colon is not an integer, makes the constructor raise
    ([ValueError]); the entry is not skipped. *)
Theorem sentinel_init_bad_entry_raises
    (arguments : gmap string pyval) (s : string) :
  arguments !! "sentinels" = Some (VStr s) →
  Exists bad_sentinel_entry (split "," s) →
  RedisSentinelBackend.__init__ arguments = Raise ValueError.
Proof.
  intros Hs Hbad. unfold RedisSentinelBackend.__init__.
  rewrite (getitem_Some _ _ _ Hs), result_bind_Ok. simpl str_split.
  rewrite result_bind_Ok, (sentinel_tuples_bad _ Hbad). done.
Qed.

Lemma sentinel_init_bad_entry_raises_witness :
  RedisSentinelBackend.__init__
    (<["sentinels" := VStr "10.0.0.1:26379,10.0.0.2"]> sentinel_arguments)
  = Raise ValueError
  ∧ RedisSentinelBackend.__init__
      (<["sentinels" := VStr "10.0.0.1:26379,10.0.0.2:http"]>
         sentinel_arguments)
    = Raise ValueError.
Proof.
  split.
  - apply (sentinel_init_bad_entry_raises _ "10.0.0.1:26379,10.0.0.2").
    + reflexivity.
    + apply Exists_cons_tl, Exists_cons_hd. left. reflexivity.
  - apply (sentinel_init_bad_entry_raises _ "10.0.0.1:26379,10.0.0.2:http").
    + reflexivity.
    + apply Exists_cons_tl, Exists_cons_hd. right.
      exists "10.0.0.2", "http". split; reflexivity.
Defined.

Lemma ssl_requested_true (arguments : gmap string pyval) :
  RedisSentinelBackend.ssl_requested arguments = true →
  ∃ v, arguments !! "ssl" = Some v ∧ truthy v = true.
Proof.
  unfold RedisSentinelBackend.ssl_requested.
  destruct (arguments !! "ssl") as [v|]; [|done]. intros H. by exists v.
Qed.



(** The example of the specification, evaluated: both nested dictionaries
    equal [{"username": "u", "password": "p"}]. *)
Example sentinel_init_example :
  RedisSentinelBackend.__init__ sentinel_arguments
  = Ok (<["sentinels" :=
            VList [VTuple [VStr "10.0.0.1"; VInt 26379];
                   VTuple [VStr "10.0.0.2"; VInt 26379]]]>
         (<["connection_kwargs" :=
              VDict (<["username" := VStr "u"]> {["password" := VStr "p"]})]>
            (<["sentinel_kwargs" :=
                 VDict (<["username" := VStr "u"]>
                          {["password" := VStr "p"]})]> ∅))).
Proof. vm_compute. reflexivity. Qed.

(** A falsy [ssl] leaves the TLS fields out of the nested dictionaries. *)
Example sentinel_init_ssl_false :
  RedisSentinelBackend.__init__
    (<["ssl" := VBool false]>
       (<["ssl_certfile" := VStr "c.pem"]> sentinel_arguments))
  = Ok (<["sentinels" :=
            VList [VTuple [VStr "10.0.0.1"; VInt 26379];
                   VTuple [VStr "10.0.0.2"; VInt 26379]]]>
         (<["ssl" := VBool false]>
         (<["ssl_certfile" := VStr "c.pem"]>
         (<["connection_kwargs" :=
              VDict (<["username" := VStr "u"]> {["password" := VStr "p"]})]>
            (<["sentinel_kwargs" :=
                 VDict (<["username" := VStr "u"]>
                          {["password" := VStr "p"]})]> ∅))))).
Proof. vm_compute. reflexivity. Qed.

(** C2, as the code has it: the adapter has no validation step, but it
    subscripts the dictionary, so a missing field raises [KeyError] inside
    the constructor, before the parent constructor (and so the client) is
    reached: [sentinels] first, then [username], [password] and, when TLS
    is requested, [ssl_certfile], [ssl_keyfile], [ssl_ca_certs]. *)
Theorem sentinel_init_missing_field_raises (arguments : gmap string pyval) :
  (arguments !! "sentinels" = None →
   RedisSentinelBackend.__init__ arguments = Raise (KeyError "sentinels")) ∧
  (∀ s tuples f,
     arguments !! "sentinels" = Some (VStr s) →
     Forall2 sentinel_entry (split "," s) tuples →
     missing_field arguments = Some f →
     RedisSentinelBackend.__init__ arguments = Raise (KeyError f)).
Proof.
  split.
  - intros Hs. unfold RedisSentinelBackend.__init__.
    by rewrite (getitem_None _ _ Hs).
  - intros s tuples f Hs Htuples Hm. unfold RedisSentinelBackend.__init__.
    rewrite (getitem_Some _ _ _ Hs), result_bind_Ok. simpl str_split.
    rewrite result_bind_Ok, (sentinel_tuples_ok _ _ Htuples), result_bind_Ok.
    unfold missing_field in Hm.
    destruct (arguments !! "username") as [u|] eqn:Hu.
    2:{ rewrite filter_cons in Hm. case_decide; [|done].
        simpl in Hm. injection Hm as <-. by rewrite (getitem_None _ _ Hu). }
    rewrite filter_cons in Hm. case_decide; [congruence|].
    rewrite (getitem_Some _ _ _ Hu), result_bind_Ok.
    destruct (arguments !! "password") as [p|] eqn:Hp.
    2:{ rewrite filter_cons in Hm. case_decide; [|done].
        simpl in Hm. injection Hm as <-. by rewrite (getitem_None _ _ Hp). }
    rewrite filter_cons in Hm. case_decide; [congruence|].
    rewrite (getitem_Some _ _ _ Hp), result_bind_Ok.
    destruct (RedisSentinelBackend.ssl_requested arguments) eqn:Hssl;
      [|done].
    destruct (ssl_requested_true _ Hssl) as (v & Hv & _).
    rewrite (getitem_Some _ _ _ Hv), result_bind_Ok.
    destruct (arguments !! "ssl_certfile") as [c|] eqn:Hc.
    2:{ rewrite filter_cons in Hm. case_decide; [|done].
        simpl in Hm. injection Hm as <-. by rewrite (getitem_None _ _ Hc). }
    rewrite filter_cons in Hm. case_decide; [congruence|].
    rewrite (getitem_Some _ _ _ Hc), result_bind_Ok.
    destruct (arguments !! "ssl_keyfile") as [k|] eqn:Hk.
    2:{ rewrite filter_cons in Hm. case_decide; [|done].
        simpl in Hm. injection Hm as <-. by rewrite (getitem_None _ _ Hk). }
    rewrite filter_cons in Hm. case_decide; [congruence|].
    rewrite (getitem_Some _ _ _ Hk), result_bind_Ok.
    destruct (arguments !! "ssl_ca_certs") as [ca|] eqn:Hca.
    2:{ rewrite filter_cons in Hm. case_decide; [|done].
        simpl in Hm. injection Hm as <-. by rewrite (getitem_None _ _ Hca). }
    rewrite filter_cons in Hm. case_decide; [congruence|]. done.
Qed.

Lemma sentinel_init_missing_field_raises_witness :
  RedisSentinelBackend.__init__ (delete "username" sentinel_arguments)
  = Raise (KeyError "username").
Proof.
  apply (proj2 (sentinel_init_missing_field_raises
                  (delete "username" sentinel_arguments))
           "10.0.0.1:26379,10.0.0.2:26379"
           [VTuple [VStr "10.0.0.1"; VInt 26379];
            VTuple [VStr "10.0.0.2"; VInt 26379]]).
  - reflexivity.
  - repeat constructor.
    + exists "10.0.0.1", "26379", 26379. repeat split; reflexivity.
    + exists "10.0.0.2", "26379", 26379. repeat split; reflexivity.
  - reflexivity.
Defined.

(** With [ssl] true and no [ssl_certfile], the constructor itself raises:
    the dictionary never reaches the underlying client. *)
Lemma sentinel_init_raises_without_certfile :
  RedisSentinelBackend.__init__ (<["ssl" := VBool true]> sentinel_arguments)
  = Raise (KeyError "ssl_certfile")
  ∧ ¬ ∃ out, RedisSentinelBackend.__init__
               (<["ssl" := VBool true]> sentinel_arguments) = Ok out.
Proof.
  assert (RedisSentinelBackend.__init__
            (<["ssl" := VBool true]> sentinel_arguments)
          = Raise (KeyError "ssl_certfile")) as H
    by (vm_compute; reflexivity).
  split; [exact H|]. intros [out Hout]. rewrite H in Hout. discriminate.
Qed.

(** ** The state and error monad *)

Lemma M_bind_run {A B} (m : M A) (k : A → M B) (w : world) :
  (m ≫= k) w = match m w with
               | (w', Ok a) => k a w'
               | (w', Raise e) => (w', Raise e)
               end.
Proof. reflexivity. Qed.

Lemma M_bind_Ok {A B} (m : M A) (k : A → M B) (w w' : world) (a : A) :
  m w = (w', Ok a) → (m ≫= k) w = k a w'.
Proof. intros H. by rewrite M_bind_run, H. Qed.

Lemma M_bind_Raise {A B} (m : M A) (k : A → M B) (w w' : world) (e : exn) :
  m w = (w', Raise e) → (m ≫= k) w = (w', Raise e).
Proof. intros H. by rewrite M_bind_run, H. Qed.

Lemma M_ret_run {A} (a : A) (w : world) : (mret a : M A) w = (w, Ok a).
Proof. reflexivity. Qed.

(** ** The config translator *)

Lemma arg_key_join (prefix argname : string) :
  join "." [prefix; "arguments"; argname]
  = prefix +:+ ".arguments." +:+ argname.
Proof. reflexivity. Qed.

Lemma arg_key_inj (prefix n m : string) :
  prefix +:+ ".arguments." +:+ n = prefix +:+ ".arguments." +:+ m → n = m.
Proof.
  intros H. apply append_inj_l in H. by apply (append_inj_l ".arguments.").
Qed.

Lemma split_once_Some (c : ascii) (s l r : string) :
  partition_first c s = Some (l, r) → split_once c s = [l; r].
Proof. unfold split_once. by intros ->. Qed.

Lemma split_once_None (c : ascii) (s : string) :
  partition_first c s = None → split_once c s = [s].
Proof. unfold split_once. by intros ->. Qed.

(** The loop over [backend_argument] never raises; it only adds events, and
    leaves under each argument key the value supplied last. *)
Lemma backend_arguments_run (prefix : string) (arguments : list string) :
  ∀ (d : gmap string pyval) (w : world),
  ∃ evs d',
    backend_arguments prefix arguments d w
    = (World (region_obj w) (events w ++ evs)%list, Ok d') ∧
    (∀ n, d' !! (prefix +:+ ".arguments." +:+ n)
          = match supplied arguments n with
            | Some v => Some (VStr v)
            | None => d !! (prefix +:+ ".arguments." +:+ n)
            end) ∧
    (∀ k, (∀ n, k ≠ prefix +:+ ".arguments." +:+ n) → d' !! k = d !! k).
Proof.
  induction arguments as [|argument rest IH]; intros d w.
  - exists [], d. simpl. rewrite app_nil_r. by destruct w.
  - simpl backend_arguments.
    destruct (partition_first ":" argument) as [[n0 v0]|] eqn:Hp.
    + rewrite (split_once_Some _ _ _ _ Hp). unfold unpack2. cbv beta iota.
      change (prefix +:+ "." +:+ "arguments" +:+ "." +:+ n0)
        with (prefix +:+ ".arguments." +:+ n0).
      set (d1 := <[prefix +:+ ".arguments." +:+ n0 := VStr v0]> d).
      destruct (IH d1 (World (region_obj w)
                         (events w ++ [LogDebugConfig d1])%list))
        as (evs & d' & Hrun & Harg & Hother).
      exists (LogDebugConfig d1 :: evs), d'. split; [|split].
      * rewrite M_bind_run. unfold emit at 1. rewrite Hrun. simpl.
        by rewrite <- app_assoc.
      * intros n. rewrite Harg. simpl supplied. rewrite Hp.
        destruct (supplied rest n); [done|].
        unfold d1. destruct (decide (n0 = n)) as [->|Hne].
        -- by rewrite lookup_insert_eq.
        -- rewrite lookup_insert_ne; [done|].
           intros H. by apply arg_key_inj in H.
      * intros k Hk. rewrite (Hother k Hk). unfold d1.
        rewrite lookup_insert_ne; [done|]. intros H. by apply (Hk n0).
    + rewrite (split_once_None _ _ Hp). unfold unpack2. cbv beta iota.
      destruct (IH d (World (region_obj w)
                        (events w ++ [LogError argument])%list))
        as (evs & d' & Hrun & Harg & Hother).
      exists (LogError argument :: evs), d'. split; [|split].
      * rewrite M_bind_run. unfold emit at 1. rewrite Hrun. simpl.
        by rewrite <- app_assoc.
      * intros n. rewrite Harg. simpl supplied. rewrite Hp.
        by destruct (supplied rest n).
      * done.
Qed.

Lemma memcache_arguments_run (c : CacheOpts) (prefix : string)
    (d : gmap string pyval) (w : world) :
  memcache_arguments c prefix memcache_args d w
  = (w, Ok (<[prefix +:+ ".arguments." +:+ "pool_connection_get_timeout" :=
                memcache_pool_connection_get_timeout c]>
             (<[prefix +:+ ".arguments." +:+ "pool_unused_timeout" :=
                  memcache_pool_unused_timeout c]>
                (<[prefix +:+ ".arguments." +:+ "pool_maxsize" :=
                     memcache_pool_maxsize c]>
                   (<[prefix +:+ ".arguments." +:+ "socket_timeout" :=
                        memcache_socket_timeout c]>
                      (<[prefix +:+ ".arguments." +:+ "dead_retry" :=
                           memcache_dead_retry c]> d)))))).
Proof. reflexivity. Qed.

Ltac key_ne :=
  repeat intro;
  match goal with
  | H : _ +:+ _ = _ +:+ _ |- False =>
      first [ apply arg_key_inj in H; congruence
            | apply append_inj_l in H; discriminate H ]
  end.

Lemma setdefault_lookup (k k' : string) (v : pyval) (d : gmap string pyval) :
  setdefault k v d !! k'
  = if decide (k = k') then Some (default v (d !! k)) else d !! k'.
Proof.
  unfold setdefault. destruct (d !! k) as [x|] eqn:E.
  - case_decide; [by subst|done].
  - rewrite lookup_insert. by case_decide.
Qed.

(** The translator never raises and leaves the region alone; the resolved
    dictionary holds the backend name, the expiration time and, under every
    argument key, [resolved_argument]. *)
Lemma build_cache_config_run (conf : ConfigOpts) (w : world) :
  ∃ evs d,
    _build_cache_config conf w
    = (World (region_obj w) (events w ++ evs)%list, Ok d) ∧
    d !! (config_prefix (cache conf) +:+ ".backend")
    = Some (VStr (backend (cache conf))) ∧
    d !! (config_prefix (cache conf) +:+ ".expiration_time")
    = Some (expiration_time (cache conf)) ∧
    (∀ n, d !! (config_prefix (cache conf) +:+ ".arguments." +:+ n)
          = resolved_argument (cache conf) n).
Proof.
  unfold _build_cache_config. cbv zeta.
  set (c := cache conf). set (prefix := config_prefix c).
  set (d0 := <[prefix +:+ ".expiration_time" := expiration_time c]>
               (<[prefix +:+ ".backend" := VStr (backend c)]> ∅)).
  destruct (backend_arguments_run prefix (backend_argument c) d0 w)
    as (evs & d' & Hrun & Harg & Hother).
  rewrite (M_bind_Ok _ _ _ _ _ Hrun).
  rewrite M_bind_run, memcache_arguments_run.
  eexists evs, _. split; [reflexivity|].
  split; [|split].
  - repeat (rewrite lookup_insert_ne by key_ne).
    rewrite setdefault_lookup. case_decide as Hk; [by apply append_inj_l in Hk|].
    rewrite Hother by key_ne. unfold d0.
    rewrite lookup_insert_ne by key_ne. by rewrite lookup_insert_eq.
  - repeat (rewrite lookup_insert_ne by key_ne).
    rewrite setdefault_lookup. case_decide as Hk; [by apply append_inj_l in Hk|].
    rewrite Hother by key_ne. unfold d0. by rewrite lookup_insert_eq.
  - intros n. unfold resolved_argument. fold c.
    destruct (decide (n ∈ memcache_args)) as [Hin|Hnin].
    + unfold memcache_args in Hin.
      repeat (apply elem_of_cons in Hin as [->|Hin]);
        [..|by apply elem_of_nil in Hin];
        repeat (rewrite lookup_insert_ne by key_ne);
        by rewrite lookup_insert_eq.
    + unfold memcache_args in Hnin.
      repeat (apply not_elem_of_cons in Hnin as [? Hnin]).
      repeat (rewrite lookup_insert_ne by key_ne).
      rewrite setdefault_lookup.
      change (prefix +:+ ".arguments.url")
        with (prefix +:+ ".arguments." +:+ "url").
      rewrite !Harg. unfold d0.
      repeat (rewrite lookup_insert_ne by key_ne). rewrite !lookup_empty.
      case_decide as Hk.
      * apply arg_key_inj in Hk as <-.
        rewrite decide_True by done. by destruct (supplied _ _).
      * destruct (supplied _ _); [done|].
        rewrite decide_False; [done|]. by intros ->.
Qed.

Lemma supplied_entry (l1 l2 : list string) (name value : string) :
  contains ":" name = false →
  supplied l2 name = None →
  supplied (l1 ++ (name +:+ ":" +:+ value) :: l2)%list name = Some value.
Proof.
  intros Hname Hl2. induction l1 as [|a l1 IH]; simpl.
  - rewrite Hl2.
    assert (partition_first ":" (name +:+ ":" +:+ value)
            = Some (name, value)) as ->
      by (by apply partition_first_Some).
    by rewrite decide_True.
  - by rewrite IH.
Qed.

Lemma supplied_well_formed (l : list string) (name : string) :
  supplied (filter well_formed l) name = supplied l name.
Proof.
  induction l as [|a l IH]; [done|].
  rewrite filter_cons. case_decide as Hwf; simpl; rewrite IH; [done|].
  destruct (supplied l name); [done|].
  unfold well_formed in Hwf. apply not_true_is_false in Hwf.
  apply partition_first_None in Hwf. by rewrite Hwf.
Qed.

(** Malformed entries leave no trace in the dictionary built by the loop. *)
Lemma backend_arguments_skip_malformed (prefix : string)
    (arguments : list string) :
  ∀ (d : gmap string pyval) (w w2 : world),
    (backend_arguments prefix (filter well_formed arguments) d w2).2
    = (backend_arguments prefix arguments d w).2.
Proof.
  induction arguments as [|a rest IH]; intros d w w2; [done|].
  rewrite filter_cons. case_decide as Hwf.
  - simpl backend_arguments.
    destruct (unpack2 (split_once ":" a)) as [[n v]|[]]; try done.
    + rewrite !M_bind_run. unfold emit. cbv beta iota. apply IH.
    + rewrite !M_bind_run. unfold emit. cbv beta iota. apply IH.
  - unfold well_formed in Hwf. apply not_true_is_false in Hwf.
    apply partition_first_None in Hwf.
    simpl backend_arguments. rewrite (split_once_None _ _ Hwf).
    unfold unpack2. cbv beta iota. rewrite M_bind_run. unfold emit.
    cbv beta iota. apply IH.
Qed.

Lemma url_not_memcache_arg : "url" ∉ memcache_args.
Proof.
  unfold memcache_args. rewrite !not_elem_of_cons.
  repeat split; try discriminate. apply not_elem_of_nil.
Qed.

(** C1, as the code has it: only [url] is set if absent (a value supplied
    by [backend_argument] is kept, [memcache_servers] is the default); the
    five other legacy fields are assigned unconditionally and replace
    whatever [backend_argument] supplied under their names. *)
Theorem legacy_fields_resolution (conf : ConfigOpts) (w : world) :
  ∃ w' d,
    _build_cache_config conf w = (w', Ok d) ∧
    d !! (config_prefix (cache conf) +:+ ".arguments.url")
    = Some (match supplied (backend_argument (cache conf)) "url" with
            | Some v => VStr v
            | None => memcache_servers (cache conf)
            end) ∧
    d !! (config_prefix (cache conf) +:+ ".arguments.dead_retry")
    = Some (memcache_dead_retry (cache conf)) ∧
    d !! (config_prefix (cache conf) +:+ ".arguments.socket_timeout")
    = Some (memcache_socket_timeout (cache conf)) ∧
    d !! (config_prefix (cache conf) +:+ ".arguments.pool_maxsize")
    = Some (memcache_pool_maxsize (cache conf)) ∧
    d !! (config_prefix (cache conf) +:+ ".arguments.pool_unused_timeout")
    = Some (memcache_pool_unused_timeout (cache conf)) ∧
    d !! (config_prefix (cache conf)
          +:+ ".arguments.pool_connection_get_timeout")
    = Some (memcache_pool_connection_get_timeout (cache conf)).
Proof.
  destruct (build_cache_config_run conf w) as (evs & d & Hrun & _ & _ & Harg).
  eexists _, d. split; [exact Hrun|].
  repeat split.
  - transitivity (resolved_argument (cache conf) "url");
      [exact (Harg "url")|].
    unfold resolved_argument. rewrite decide_False by apply url_not_memcache_arg.
    destruct (supplied _ _); [done|]. by rewrite decide_True.
  - exact (Harg "dead_retry").
  - exact (Harg "socket_timeout").
  - exact (Harg "pool_maxsize").
  - exact (Harg "pool_unused_timeout").
  - exact (Harg "pool_connection_get_timeout").
Qed.

(** [backend_argument = dead_retry:5] supplies a value for
    [cache.arguments.dead_retry], yet the resolved dictionary holds the
    legacy option's value there. *)
Lemma legacy_dead_retry_replaces_backend_argument :
  ∃ d,
    (_build_cache_config conf_dead_retry fresh_world).2 = Ok d ∧
    supplied (backend_argument (cache conf_dead_retry)) "dead_retry"
    = Some "5" ∧
    d !! "cache.arguments.dead_retry" = Some (VInt 300) ∧
    d !! "cache.arguments.dead_retry" ≠ Some (VStr "5").
Proof.
  eexists. split; [vm_compute; reflexivity|].
  split; [reflexivity|]. split; [vm_compute; reflexivity|].
  vm_compute. discriminate.
Qed.

Lemma build_cache_config_unfold (conf : ConfigOpts) (w : world) :
  _build_cache_config conf w
  = let c := cache conf in
    let prefix := config_prefix c in
    match backend_arguments prefix (backend_argument c)
            (<[prefix +:+ ".expiration_time" := expiration_time c]>
               (<[prefix +:+ ".backend" := VStr (backend c)]> ∅)) w with
    | (w', Ok d') =>
        memcache_arguments c prefix memcache_args
          (setdefault (prefix +:+ ".arguments.url") (memcache_servers c) d')
          w'
    | (w', Raise e) => (w', Raise e)
    end.
Proof.
  unfold _build_cache_config. cbv zeta. rewrite M_bind_run.
  destruct (backend_arguments _ _ _ w) as [w' [d'|e]]; [|done].
  rewrite M_bind_run. repeat rewrite memcache_arguments_run. done.
Qed.

Lemma build_cache_config_drop_malformed (conf : ConfigOpts) (w w2 : world) :
  (_build_cache_config (drop_malformed conf) w2).2
  = (_build_cache_config conf w).2.
Proof.
  rewrite !build_cache_config_unfold. cbv zeta. simpl.
  set (c := cache conf). set (prefix := config_prefix c).
  set (d0 := <[prefix +:+ ".expiration_time" := expiration_time c]>
               (<[prefix +:+ ".backend" := VStr (backend c)]> ∅)).
  pose proof (backend_arguments_skip_malformed prefix (backend_argument c)
                d0 w w2) as Hskip.
  destruct (backend_arguments_run prefix (backend_argument c) d0 w)
    as (evs & d1 & Hrun1 & _).
  destruct (backend_arguments_run prefix
              (filter well_formed (backend_argument c)) d0 w2)
    as (evs2 & d2 & Hrun2 & _).
  rewrite Hrun1, Hrun2 in Hskip. simpl in Hskip. injection Hskip as ->.
  rewrite Hrun1, Hrun2. repeat rewrite memcache_arguments_run. done.
Qed.

(** C4, as the code has it: translation always completes; every entry is
    split once at its first colon; a malformed entry adds nothing (the
    dictionary is the one built without it); a well-formed [name:value]
    assigns [value] to [<prefix>.arguments.<name>], so that the dictionary
    holds, for each name outside [url] and the legacy names, the value of the
    last entry with that name. *)
Theorem build_cache_config_arguments (conf : ConfigOpts) (w : world) :
  ∃ w' d,
    _build_cache_config conf w = (w', Ok d) ∧
    (∀ w2, (_build_cache_config (drop_malformed conf) w2).2 = Ok d) ∧
    (∀ name,
       name ∉ "url" :: memcache_args →
       d !! (config_prefix (cache conf) +:+ ".arguments." +:+ name)
       = VStr <$> supplied (backend_argument (cache conf)) name) ∧
    (∀ l1 name value l2,
       backend_argument (cache conf)
       = (l1 ++ (name +:+ ":" +:+ value) :: l2)%list →
       contains ":" name = false →
       supplied l2 name = None →
       name ∉ memcache_args →
       d !! (config_prefix (cache conf) +:+ ".arguments." +:+ name)
       = Some (VStr value)).
Proof.
  destruct (build_cache_config_run conf w) as (evs & d & Hrun & _ & _ & Harg).
  eexists _, d. split; [exact Hrun|]. split; [|split].
  - intros w2. rewrite (build_cache_config_drop_malformed conf w w2).
    by rewrite Hrun.
  - intros name Hname. apply not_elem_of_cons in Hname as [Hurl Hname].
    rewrite Harg. unfold resolved_argument. rewrite decide_False by done.
    destruct (supplied _ _); [done|]. by rewrite decide_False.
  - intros l1 name value l2 Hargs Hcolon Hlater Hname.
    rewrite Harg. unfold resolved_argument. rewrite decide_False by done.
    by rewrite Hargs, (supplied_entry _ _ _ _ Hcolon Hlater).
Qed.

Lemma build_cache_config_arguments_witness :
  ∃ d,
    (_build_cache_config
       (conf_of (with_backend_argument ["host:10.0.0.1:6379"; "nocolon"]
                   default_cache_opts)) fresh_world).2 = Ok d ∧
    d !! "cache.arguments.host" = Some (VStr "10.0.0.1:6379").
Proof.
  destruct (build_cache_config_arguments
              (conf_of (with_backend_argument
                          ["host:10.0.0.1:6379"; "nocolon"]
                          default_cache_opts)) fresh_world)
    as (w' & d & Hrun & _ & _ & Hentry).
  exists d. split; [by rewrite Hrun|].
  apply (Hentry [] "host" "10.0.0.1:6379" ["nocolon"]).
  - reflexivity.
  - reflexivity.
  - reflexivity.
  - unfold memcache_args. rewrite !not_elem_of_cons.
    repeat split; try discriminate. apply not_elem_of_nil.
Defined.

(** Two well-formed entries with the name [a] leave one entry: the value of
    the first, ["1"], is not in the dictionary. *)
Lemma duplicate_backend_argument_last_wins :
  ∃ d,
    (_build_cache_config conf_duplicate fresh_world).2 = Ok d ∧
    backend_argument (cache conf_duplicate) = ["a:1"; "a:2"] ∧
    split_once ":" "a:1" = ["a"; "1"] ∧
    d !! "cache.arguments.a" = Some (VStr "2") ∧
    d !! "cache.arguments.a" ≠ Some (VStr "1").
Proof.
  eexists. split; [vm_compute; reflexivity|].
  split; [reflexivity|]. split; [reflexivity|].
  split; [vm_compute; reflexivity|]. vm_compute. discriminate.
Qed.

(** ** [should_cache] *)

(** C7: [should_cache] is false whenever the global [enabled] flag is false,
    whatever the group says (or even whether it exists); when [enabled] is
    true it is the group's [caching] option, and true when the group does
    not define that option. *)
Theorem should_cache_follows_flags
    (conf : ConfigOpts) (group : string) (value : pyval) :
  (enabled (cache conf) = false →
   _get_should_cache_fn conf group value = Ok (VBool false)) ∧
  (∀ g v, enabled (cache conf) = true →
          groups conf !! group = Some g → g !! "caching" = Some v →
          _get_should_cache_fn conf group value = Ok v) ∧
  (∀ g, enabled (cache conf) = true →
        groups conf !! group = Some g → g !! "caching" = None →
        _get_should_cache_fn conf group value = Ok (VBool true)).
Proof.
  unfold _get_should_cache_fn, should_cache, getattr_group.
  split; [|split].
  - by intros ->.
  - intros g v -> -> Hv. simpl. by rewrite Hv.
  - intros g -> -> Hv. simpl. by rewrite Hv.
Qed.

Lemma should_cache_follows_flags_witness :
  _get_should_cache_fn (conf_groups false) "catalog" VNone = Ok (VBool false)
  ∧ _get_should_cache_fn (conf_groups true) "identity" VNone
    = Ok (VBool false)
  ∧ _get_should_cache_fn (conf_groups true) "catalog" VNone
    = Ok (VBool true).
Proof.
  split; [|split].
  - apply (proj1 (should_cache_follows_flags (conf_groups false) "catalog"
                    VNone)).
    reflexivity.
  - apply (proj1 (proj2 (should_cache_follows_flags (conf_groups true)
                           "identity" VNone))
             {["caching" := VBool false]}); reflexivity.
  - apply (proj2 (proj2 (should_cache_follows_flags (conf_groups true)
                           "catalog" VNone)) ∅); reflexivity.
Defined.

(** ** The key mangler *)

Lemma encode_utf8_xmlcharrefreplace (s : list Z) :
  encode_utf8 xmlcharrefreplace s
  = Ok (flat_map (λ c, if is_surrogate c then xmlcharref c else utf8_char c)
          s).
Proof.
  induction s as [|c s IH]; [done|].
  simpl. rewrite IH. by destruct (is_surrogate c).
Qed.

Lemma encode_utf8_strict_surrogate (c : Z) (s : list Z) :
  is_surrogate c = true → encode_utf8 strict (c :: s) = Raise UnicodeEncodeError.
Proof. intros H. simpl. by rewrite H. Qed.

Lemma be_bytes_length (n : nat) (x : Z) : length (sha1.be_bytes n x) = n.
Proof. induction n as [|n IH]; simpl; [done|]. by rewrite IH. Qed.

Lemma digest_length (msg : list Z) : length (sha1.digest msg) = 20%nat.
Proof.
  unfold sha1.digest. cbv zeta. rewrite !length_app, !be_bytes_length. done.
Qed.

Lemma hex_length (bs : list Z) :
  String.length (sha1.hex bs) = (2 * length bs)%nat.
Proof. induction bs as [|b bs IH]; simpl; [done|]. rewrite IH. lia. Qed.

Lemma hexdigest_length (msg : list Z) :
  String.length (sha1.hexdigest msg) = 40%nat.
Proof. unfold sha1.hexdigest. by rewrite hex_length, digest_length. Qed.

(** The implementation agrees with the standard test vectors. *)
Example sha1_abc :
  sha1.hexdigest (ascii_bytes "abc")
  = "a9993e364706816aba3e25717850c26c9cd0d89d".
Proof. vm_compute. reflexivity. Qed.

Example sha1_empty :
  sha1.hexdigest [] = "da39a3ee5e6b4b0d3255bfef95601890afd80709".
Proof. vm_compute. reflexivity. Qed.

Example sha1_two_blocks :
  sha1.hexdigest
    (ascii_bytes "abcdbcdecdefdefgefghfghighijhijkijkljklmklmnlmnomnopnopq")
  = "84983e441c3bd26ebaae4aa1f95129e5e54670f1".
Proof. vm_compute. reflexivity. Qed.

(** Code points outside ASCII are encoded, not escaped; only a surrogate
    becomes a character reference. *)
Example encode_utf8_example :
  encode_utf8 xmlcharrefreplace [233; 8364; 128512; 55357; 65]
  = Ok [195; 169;  226; 130; 172;  240; 159; 152; 128;
        38; 35; 53; 53; 51; 53; 55; 59;  65].
Proof. vm_compute. reflexivity. Qed.

Lemma sha1_mangle_key_fixed_length_helper (s : list Z) :
  ∃ digest,
    _sha1_mangle_key (KStr s) = Ok digest ∧ String.length digest = 40%nat.
Proof.
  exists (sha1.hexdigest
            (flat_map (λ c, if is_surrogate c then xmlcharref c
                            else utf8_char c) s)).
  split; [|apply hexdigest_length].
  unfold _sha1_mangle_key, key_encode.
  rewrite encode_utf8_xmlcharrefreplace. reflexivity.
Qed.

(** C9, as the code has it: for every [str] key the encoding step never
    fails, because the code points UTF-8 cannot encode (the surrogates, and
    only they) are replaced by numeric character references while every
    other code point, ASCII or not, is encoded as UTF-8; the mangled key is
    the SHA-1 hexadecimal digest of these bytes, forty characters long
    whatever the length of the key. *)
Theorem sha1_mangle_key_fixed_length (s : list Z) :
  ∃ bytes digest,
    encode_utf8 xmlcharrefreplace s = Ok bytes ∧
    bytes = flat_map (λ c, if is_surrogate c then xmlcharref c
                           else utf8_char c) s ∧
    _sha1_mangle_key (KStr s) = Ok digest ∧
    digest = sha1.hexdigest bytes ∧
    String.length digest = 40%nat.
Proof.
  eexists _, _. split; [apply encode_utf8_xmlcharrefreplace|].
  split; [reflexivity|]. split.
  - unfold _sha1_mangle_key, key_encode.
    rewrite encode_utf8_xmlcharrefreplace. reflexivity.
  - split; [reflexivity|]. apply hexdigest_length.
Qed.

(** The key ["é"] (U+00E9): the code hashes its two UTF-8 bytes; under the
    wording of the specification it would hash the six bytes of [&#233;]. *)
Lemma non_ascii_key_is_encoded_not_escaped :
  encode_utf8 xmlcharrefreplace [233] = Ok [195; 169] ∧
  spec_escape_non_ascii [233] = ascii_bytes "&#233;" ∧
  encode_utf8 xmlcharrefreplace [233] ≠ Ok (spec_escape_non_ascii [233]) ∧
  _sha1_mangle_key (KStr [233])
  ≠ sha1_mangle_key (KBytes (spec_escape_non_ascii [233])).
Proof.
  split; [reflexivity|]. split; [reflexivity|].
  split; vm_compute; discriminate.
Qed.

(** A key of 10,000 characters is mangled to forty characters. *)
Example sha1_mangle_key_long_key :
  ∃ digest,
    _sha1_mangle_key (KStr (replicate (Z.to_nat 10000) 97)) = Ok digest ∧
    String.length digest = 40%nat.
Proof.
  destruct (sha1_mangle_key_fixed_length_helper (replicate (Z.to_nat 10000) 97))
    as (digest & H1 & H2).
  by exists digest.
Qed.

(** ** Region configuration *)

Lemma wrap_run (env : environment) (cls : proxy_class) (w : world)
    (b : backend_obj) :
  is_proxy_backend env cls = true →
  dogpile.backend (region_obj w) = Some b →
  wrap env cls w
  = (World {| dogpile.backend := Some (Proxy cls b);
              dogpile.key_mangler := dogpile.key_mangler (region_obj w);
              dogpile.expiration_time :=
                dogpile.expiration_time (region_obj w) |}
           (events w), Ok tt).
Proof.
  intros Hcls Hb. unfold wrap. rewrite Hcls, M_bind_run.
  unfold get_region. cbv beta iota. by rewrite Hb.
Qed.

(** [wrap] never unconfigures the region and never raises
    [ConfigurationError]. *)
Lemma wrap_cases (env : environment) (cls : proxy_class) (w : world) :
  ∃ w' res,
    wrap env cls w = (w', res) ∧
    events w' = events w ∧
    (dogpile.is_configured (region_obj w) = true →
     dogpile.is_configured (region_obj w') = true) ∧
    res ≠ Raise ConfigurationError.
Proof.
  unfold wrap. destruct (is_proxy_backend env cls).
  - rewrite M_bind_run. unfold get_region. cbv beta iota.
    destruct (dogpile.backend (region_obj w)) as [b|] eqn:Hb.
    + eexists _, _. split; [reflexivity|]. by repeat split.
    + eexists _, _. split; [reflexivity|]. by repeat split.
  - eexists _, _. split; [reflexivity|]. by repeat split.
Qed.

Lemma wrap_proxies_cons (env : environment) (class_path : string)
    (rest : list string) (w : world) :
  wrap_proxies env (class_path :: rest) w
  = match classes env !! class_path with
    | Some _ =>
        match wrap env (Imported class_path)
                (World (region_obj w)
                   (events w ++ [LogDebugProxy class_path])%list) with
        | (w', Ok _) => wrap_proxies env rest w'
        | (w', Raise e) => (w', Raise e)
        end
    | None => (w, Raise (ImportError class_path))
    end.
Proof.
  simpl wrap_proxies. rewrite M_bind_run. unfold import_class.
  destruct (classes env !! class_path); [|done].
  rewrite M_ret_run, M_bind_run. unfold emit. cbv beta iota.
  rewrite M_bind_run. by destruct (wrap _ _ _) as [w' [[]|e]].
Qed.

(** When every listed class is an importable [ProxyBackend], the loop wraps
    them one after the other around the backend it finds. *)
Lemma wrap_proxies_run (env : environment) (class_paths : list string) :
  Forall (λ p, classes env !! p = Some true) class_paths →
  ∀ (w : world) (b : backend_obj),
    dogpile.backend (region_obj w) = Some b →
    wrap_proxies env class_paths w
    = (World {| dogpile.backend :=
                  Some (foldl (λ b p, Proxy (Imported p) b) b class_paths);
                dogpile.key_mangler := dogpile.key_mangler (region_obj w);
                dogpile.expiration_time :=
                  dogpile.expiration_time (region_obj w) |}
             (events w ++ (LogDebugProxy <$> class_paths))%list, Ok tt).
Proof.
  induction 1 as [|p ps Hp _ IH]; intros w b Hb.
  - simpl. rewrite app_nil_r. destruct w as [[] ?]. simpl in *. by subst.
  - rewrite wrap_proxies_cons, Hp.
    rewrite (wrap_run env (Imported p) _ b); [|by simpl; rewrite Hp|done].
    rewrite (IH _ (Proxy (Imported p) b)); [|done].
    simpl. by rewrite <- app_assoc.
Qed.

Lemma wrap_proxies_cases (env : environment) (class_paths : list string) :
  ∀ w : world,
  ∃ w' res,
    wrap_proxies env class_paths w = (w', res) ∧
    (dogpile.is_configured (region_obj w) = true →
     dogpile.is_configured (region_obj w') = true) ∧
    res ≠ Raise ConfigurationError.
Proof.
  induction class_paths as [|p ps IH]; intros w.
  - eexists _, _. split; [reflexivity|]. by split.
  - rewrite wrap_proxies_cons. destruct (classes env !! p).
    + destruct (wrap_cases env (Imported p)
                  (World (region_obj w)
                     (events w ++ [LogDebugProxy p])%list))
        as (w1 & res1 & -> & _ & Hconf1 & Hres1).
      destruct res1 as [[]|e].
      * destruct (IH w1) as (w2 & res2 & -> & Hconf2 & Hres2).
        eexists _, _. split; [reflexivity|]. split; [|done].
        intros H. by apply Hconf2, Hconf1.
      * eexists _, _. split; [reflexivity|]. split; [|done].
        intros H. by apply Hconf1.
    + eexists _, _. split; [reflexivity|]. by split.
Qed.

Lemma configure_from_config_run (env : environment)
    (d : gmap string pyval) (prefix name : string) (w : world) :
  dogpile.is_configured (region_obj w) = false →
  d !! (prefix +:+ ".backend") = Some (VStr name) →
  configure_from_config env d (prefix +:+ ".") w
  = match registry env !! name with
    | None => (w, Raise (PluginNotFound name))
    | Some cls =>
        let arguments := sub_namespace ((prefix +:+ ".") +:+ "arguments.") d in
        let evs := (events w ++ [Instantiate name arguments])%list in
        match dogpile.cls_init cls arguments with
        | Ok a =>
            (World {| dogpile.backend := Some (Backend name a);
                      dogpile.key_mangler := dogpile.cls_key_mangler cls;
                      dogpile.expiration_time :=
                        default VNone
                          (d !! ((prefix +:+ ".") +:+ "expiration_time")) |}
                   evs, Ok tt)
        | Raise e => (World (region_obj w) evs, Raise e)
        end
    end.
Proof.
  intros Hconf Hname. unfold configure_from_config.
  rewrite M_bind_run. unfold get_region. cbv beta iota. rewrite Hconf.
  rewrite M_bind_run. unfold lift at 1. cbv beta iota.
  rewrite append_assoc.
  change ("." +:+ "backend") with ".backend".
  rewrite (getitem_Some _ _ _ Hname).
  destruct (registry env !! name) as [cls|]; [|done].
  rewrite M_bind_run. unfold emit at 1. cbv beta iota.
  rewrite M_bind_run. unfold lift at 1. cbv beta iota zeta.
  by destruct (dogpile.cls_init cls _).
Qed.

(** What [configure_cache_region] does on an unconfigured region. *)
Lemma configure_unconfigured (env : environment) (conf : ConfigOpts)
    (w : world) :
  dogpile.is_configured (region_obj w) = false →
  ∃ evs d,
    _build_cache_config conf w
    = (World (region_obj w) (events w ++ evs)%list, Ok d) ∧
    configure_cache_region env conf region_ref w
    = let c := cache conf in
      match registry env !! backend c with
      | None =>
          (World (region_obj w) (events w ++ evs)%list,
           Raise (PluginNotFound (backend c)))
      | Some cls =>
          let arguments :=
            sub_namespace ((config_prefix c +:+ ".") +:+ "arguments.") d in
          let evs1 :=
            ((events w ++ evs) ++ [Instantiate (backend c) arguments])%list in
          match dogpile.cls_init cls arguments with
          | Raise e => (World (region_obj w) evs1, Raise e)
          | Ok a =>
              let base := Backend (backend c) a in
              match wrap_proxies env (proxies c)
                      (World
                         {| dogpile.backend :=
                              Some (if debug_cache_backend c
                                    then Proxy _DebugProxy base else base);
                            dogpile.key_mangler :=
                              Some (default _sha1_mangle_key
                                      (dogpile.cls_key_mangler cls));
                            dogpile.expiration_time :=
                              default VNone
                                (d !! ((config_prefix c +:+ ".")
                                       +:+ "expiration_time")) |}
                         evs1) with
              | (w', Ok _) => (w', Ok region_ref)
              | (w', Raise e) => (w', Raise e)
              end
          end
      end.
Proof.
  intros Hconf.
  destruct (build_cache_config_run conf w)
    as (evs & d & Hrun & Hbackend & _ & _).
  exists evs, d. split; [exact Hrun|].
  unfold configure_cache_region.
  rewrite M_bind_run. unfold get_region at 1. cbv beta iota.
  rewrite Hconf. cbv beta iota. simpl negb. cbv iota.
  rewrite M_bind_run.
  rewrite (M_bind_Ok _ _ _ _ _ Hrun).
  rewrite M_bind_run.
  rewrite (configure_from_config_run env d _ (backend (cache conf)));
    [|done|done].
  cbv zeta. simpl events. simpl region_obj.
  destruct (registry env !! backend (cache conf)) as [cls|]; [|done].
  destruct (dogpile.cls_init cls _) as [a|e]; [|done].
  rewrite M_bind_run.
  destruct (debug_cache_backend (cache conf)).
  - rewrite (wrap_run env _DebugProxy _ (Backend (backend (cache conf)) a));
      [|done|done].
    rewrite M_bind_run. unfold get_region at 1. cbv beta iota.
    rewrite M_bind_run. simpl.
    destruct (dogpile.cls_key_mangler cls) as [m|]; simpl.
    + by destruct (wrap_proxies _ _ _) as [w' [[]|e]].
    + by destruct (wrap_proxies _ _ _) as [w' [[]|e]].
  - rewrite M_ret_run.
    rewrite M_bind_run. unfold get_region at 1. cbv beta iota.
    rewrite M_bind_run. simpl.
    destruct (dogpile.cls_key_mangler cls) as [m|]; simpl.
    + by destruct (wrap_proxies _ _ _) as [w' [[]|e]].
    + by destruct (wrap_proxies _ _ _) as [w' [[]|e]].
Qed.

Lemma configure_configured (env : environment) (conf : ConfigOpts)
    (w : world) :
  dogpile.is_configured (region_obj w) = true →
  configure_cache_region env conf region_ref w = (w, Ok region_ref).
Proof.
  intros Hconf. unfold configure_cache_region.
  rewrite M_bind_run. unfold get_region. cbv beta iota. by rewrite Hconf.
Qed.

(** A call that returns leaves the region configured. *)
Lemma configure_ok_configured (env : environment) (conf : ConfigOpts)
    (w w' : world) (o : pyobj) :
  configure_cache_region env conf region_ref w = (w', Ok o) →
  dogpile.is_configured (region_obj w') = true.
Proof.
  intros Hrun.
  destruct (dogpile.is_configured (region_obj w)) eqn:Hconf.
  - rewrite (configure_configured _ _ _ Hconf) in Hrun.
    by injection Hrun as <- _.
  - destruct (configure_unconfigured env conf w Hconf)
      as (evs & d & _ & Heq).
    rewrite Heq in Hrun. cbv zeta in Hrun.
    destruct (registry env !! backend (cache conf)) as [cls|]; [|done].
    destruct (dogpile.cls_init cls _) as [a|e]; [|done].
    match type of Hrun with
    | context [wrap_proxies ?e ?ps ?w1] =>
        destruct (wrap_proxies_cases e ps w1)
          as (w2 & res & Hw & Hkeep & _)
    end.
    rewrite Hw in Hrun. destruct res as [[]|e]; [|done].
    injection Hrun as <- _. by apply Hkeep.
Qed.

(** C5: on a configured region [configure_cache_region] changes nothing:
    the region object (backend, proxies, key mangler) and the event log are
    the same afterwards, so no backend is instantiated and nothing is
    wrapped; in particular a call that follows a successful call is a no-op
    and returns the region. *)
Theorem configure_cache_region_idempotent
    (env : environment) (conf : ConfigOpts) (w : world) :
  (dogpile.is_configured (region_obj w) = true →
   configure_cache_region env conf region_ref w = (w, Ok region_ref)) ∧
  (∀ env0 conf0 w0,
     configure_cache_region env0 conf0 region_ref w0 = (w, Ok region_ref) →
     configure_cache_region env conf region_ref w = (w, Ok region_ref)).
Proof.
  split.
  - apply configure_configured.
  - intros env0 conf0 w0 Hfirst. apply configure_configured.
    by apply (configure_ok_configured env0 conf0 w0 w region_ref).
Qed.



(** The call succeeds when the backend resolves, its constructor returns
    and the listed proxies are importable [ProxyBackend]s. *)
Lemma configure_unconfigured_ok
    (env : environment) (conf : ConfigOpts) (w : world)
    (cls : dogpile.backend_class) :
  dogpile.is_configured (region_obj w) = false →
  registry env !! backend (cache conf) = Some cls →
  (∀ a, ∃ a', dogpile.cls_init cls a = Ok a') →
  Forall (λ p, classes env !! p = Some true) (proxies (cache conf)) →
  ∃ w', configure_cache_region env conf region_ref w = (w', Ok region_ref).
Proof.
  intros Hconf Hcls Hinit Hproxies.
  destruct (configure_unconfigured env conf w Hconf) as (evs & d & _ & Heq).
  cbv zeta in Heq. rewrite Hcls in Heq.
  destruct (Hinit (sub_namespace
                     ((config_prefix (cache conf) +:+ ".") +:+ "arguments.")
                     d)) as [a Ha].
  rewrite Ha in Heq.
  rewrite (wrap_proxies_run env _ Hproxies _
             (if debug_cache_backend (cache conf)
              then Proxy _DebugProxy (Backend (backend (cache conf)) a)
              else Backend (backend (cache conf)) a)) in Heq; [|done].
  eexists. exact Heq.
Qed.



Lemma configure_cache_region_idempotent_witness :
  ∃ w',
    configure_cache_region example_env conf_proxies region_ref fresh_world
    = (w', Ok region_ref) ∧
    configure_cache_region example_env conf_dead_retry region_ref w'
    = (w', Ok region_ref).
Proof.
  destruct (configure_unconfigured_ok example_env conf_proxies fresh_world
              null_backend_class) as [w' Hrun].
  - reflexivity.
  - reflexivity.
  - intros a. by exists a.
  - repeat constructor.
  - exists w'. split; [exact Hrun|].
    exact (proj2 (configure_cache_region_idempotent example_env
                    conf_dead_retry w')
             example_env conf_proxies fresh_world Hrun).
Defined.

(** C6, as the code has it: [configure_cache_region] raises
    [ConfigurationError] itself in one case only, an object that is not a
    region, and then touches nothing.  A backend name the registry cannot
    resolve is not translated: the loader's [PluginNotFound] propagates, and
    the region stays as it was, unconfigured.  On a region object a
    [ConfigurationError] can only be one raised by a backend constructor. *)
Theorem configure_cache_region_errors
    (env : environment) (conf : ConfigOpts) (w : world) :
  (∀ v, configure_cache_region env conf (other v) w
        = (w, Raise ConfigurationError)) ∧
  (dogpile.is_configured (region_obj w) = false →
   registry env !! backend (cache conf) = None →
   ∃ w', configure_cache_region env conf region_ref w
         = (w', Raise (PluginNotFound (backend (cache conf)))) ∧
         region_obj w' = region_obj w ∧
         dogpile.is_configured (region_obj w') = false) ∧
  ((∀ name cls a, registry env !! name = Some cls →
                  dogpile.cls_init cls a ≠ Raise ConfigurationError) →
   (configure_cache_region env conf region_ref w).2
   ≠ Raise ConfigurationError).
Proof.
  split; [done|]. split.
  - intros Hconf Hnone.
    destruct (configure_unconfigured env conf w Hconf) as (evs & d & _ & Heq).
    cbv zeta in Heq. rewrite Hnone in Heq.
    eexists. split; [exact Heq|]. by split.
  - intros Hinit.
    destruct (dogpile.is_configured (region_obj w)) eqn:Hconf.
    + by rewrite (configure_configured _ _ _ Hconf).
    + destruct (configure_unconfigured env conf w Hconf)
        as (evs & d & _ & Heq).
      rewrite Heq. cbv zeta.
      destruct (registry env !! backend (cache conf)) as [cls|] eqn:Hcls;
        [|done].
      destruct (dogpile.cls_init cls _) as [a|e] eqn:Ha.
      * match goal with
        | |- context [wrap_proxies ?e ?ps ?w1] =>
            destruct (wrap_proxies_cases e ps w1)
              as (w2 & res & Hw & _ & Hres)
        end.
        rewrite Hw. destruct res as [[]|e]; [done|].
        simpl. intros H. apply Hres. by injection H as ->.
      * simpl. intros H. injection H as ->.
        by apply (Hinit _ _ _ Hcls) in Ha.
Qed.

Lemma configure_cache_region_errors_witness :
  ∃ w',
    configure_cache_region example_env conf_unknown_backend region_ref
      fresh_world
    = (w', Raise (PluginNotFound "no.such.backend")) ∧
    dogpile.is_configured (region_obj w') = false.
Proof.
  destruct (proj1 (proj2 (configure_cache_region_errors example_env
                            conf_unknown_backend fresh_world)))
    as (w' & Hrun & _ & Hconf).
  - reflexivity.
  - reflexivity.
  - exists w'. split; [exact Hrun|exact Hconf].
Defined.

(** With a backend name that is not registered, the call fails with the
    loader's [PluginNotFound], not with [ConfigurationError]. *)
Lemma unresolvable_backend_raises_PluginNotFound :
  (configure_cache_region example_env conf_unknown_backend region_ref
     fresh_world).2
  = Raise (PluginNotFound "no.such.backend")
  ∧ (configure_cache_region example_env conf_unknown_backend region_ref
       fresh_world).2
    ≠ Raise ConfigurationError.
Proof.
  assert ((configure_cache_region example_env conf_unknown_backend region_ref
             fresh_world).2
          = Raise (PluginNotFound "no.such.backend")) as H
    by (vm_compute; reflexivity).
  split; [exact H|]. rewrite H. discriminate.
Qed.

(** * Further properties *)

(** ** The Redis Sentinel adapter, continued *)

Lemma no_bad_entries_tuples (host_ports : list string) :
  Forall (λ e, ¬ bad_sentinel_entry e) host_ports →
  ∃ tuples, Forall2 sentinel_entry host_ports tuples.
Proof.
  induction 1 as [|e l He _ [ts IH]].
  - by exists [].
  - destruct (sentinel_entry_or_bad e) as [[t Ht]|Hbad]; [|done].
    exists (t :: ts). by constructor.
Qed.










(** An empty entry in the sentinels text (an empty text, a leading, trailing
    or doubled comma) makes the constructor raise [ValueError]. *)
Theorem sentinel_init_empty_entry
    (arguments : gmap string pyval) (s : string) :
  arguments !! "sentinels" = Some (VStr s) →
  "" ∈ split "," s →
  RedisSentinelBackend.__init__ arguments = Raise ValueError.
Proof.
  intros Hs Hin. unfold RedisSentinelBackend.__init__.
  rewrite (getitem_Some _ _ _ Hs), result_bind_Ok. simpl str_split.
  rewrite result_bind_Ok, sentinel_tuples_bad; [done|].
  apply Exists_exists. exists "". split; [done|]. by left.
Qed.

Lemma sentinel_init_empty_entry_witness :
  RedisSentinelBackend.__init__
    (<["sentinels" := VStr "10.0.0.1:26379,"]> sentinel_arguments)
  = Raise ValueError
  ∧ RedisSentinelBackend.__init__
      (<["sentinels" := VStr ""]> sentinel_arguments)
    = Raise ValueError.
Proof.
  split.
  - apply (sentinel_init_empty_entry _ "10.0.0.1:26379,"); [reflexivity|].
    apply list_elem_of_In. simpl. tauto.
  - apply (sentinel_init_empty_entry _ ""); [reflexivity|].
    apply list_elem_of_In. simpl. tauto.
Defined.

(** *** Splitting what was joined *)







(** ** The config translator, continued *)

Lemma strip_prefix_Some (p s r : string) :
  strip_prefix p s = Some r ↔ s = p +:+ r.
Proof.
  revert s. induction p as [|a p IH]; intros s.
  - simpl. rewrite append_nil. split; [by intros [= ->]|by intros ->].
  - destruct s as [|b s]; simpl.
    + split; [done|]. rewrite append_cons. discriminate.
    + rewrite append_cons. destruct (Ascii.eqb_spec a b) as [->|Hne].
      * rewrite IH. split; [by intros ->|by intros [= ->]].
      * split; [done|]. intros [= -> _]. done.
Qed.

Lemma supplied_Some_elem (arguments : list string) (name value : string) :
  supplied arguments name = Some value →
  (name +:+ ":" +:+ value) ∈ arguments.
Proof.
  induction arguments as [|a l IH]; [done|]. simpl.
  destruct (supplied l name) as [v|].
  - intros [= ->]. right. by apply IH.
  - destruct (partition_first ":" a) as [[n v]|] eqn:Hp; [|done].
    case_decide as Hn; [|done]. intros [= ->]. subst n.
    apply partition_first_Some in Hp as [-> _]. left.
Qed.

(** The loop writes one record per entry, an error record for each
    malformed entry, in the order of the list. *)
Lemma backend_arguments_log (prefix : string) (arguments : list string) :
  ∀ (d : gmap string pyval) (w : world),
  ∃ evs d',
    backend_arguments prefix arguments d w
    = (World (region_obj w) (events w ++ evs)%list, Ok d') ∧
    error_log evs = filter (λ a, ¬ well_formed a) arguments ∧
    length evs = length arguments ∧
    (Forall (λ a, ¬ well_formed a) arguments → d' = d).
Proof.
  induction arguments as [|a rest IH]; intros d w.
  - exists [], d. simpl. rewrite app_nil_r. by destruct w.
  - simpl backend_arguments.
    destruct (partition_first ":" a) as [[n0 v0]|] eqn:Hp.
    + rewrite (split_once_Some _ _ _ _ Hp). unfold unpack2. cbv beta iota.
      match goal with
      | |- context [LogDebugConfig ?d1] =>
          destruct (IH d1 (World (region_obj w)
                             (events w ++ [LogDebugConfig d1])%list))
            as (evs & d' & Hrun & Hlog & Hlen & _);
          exists (LogDebugConfig d1 :: evs), d'
      end.
      assert (well_formed a) as Hwf.
      { unfold well_formed. destruct (contains ":" a) eqn:Hc; [done|].
        apply partition_first_None in Hc. congruence. }
      split; [|split; [|split]].
      * rewrite M_bind_run. unfold emit at 1. rewrite Hrun. simpl.
        by rewrite <- app_assoc.
      * rewrite filter_cons, decide_False by (by intros H; apply H).
        done.
      * simpl. by rewrite Hlen.
      * intros H. apply Forall_cons in H as [H _]. done.
    + rewrite (split_once_None _ _ Hp). unfold unpack2. cbv beta iota.
      destruct (IH d (World (region_obj w)
                        (events w ++ [LogError a])%list))
        as (evs & d' & Hrun & Hlog & Hlen & Hsame).
      exists (LogError a :: evs), d'.
      assert (¬ well_formed a) as Hwf.
      { unfold well_formed. apply partition_first_None in Hp.
        by rewrite Hp. }
      split; [|split; [|split]].
      * rewrite M_bind_run. unfold emit at 1. rewrite Hrun. simpl.
        by rewrite <- app_assoc.
      * rewrite filter_cons, decide_True by done. simpl. by rewrite Hlog.
      * simpl. by rewrite Hlen.
      * intros H. apply Forall_cons in H as [_ H]. by apply Hsame.
Qed.

(** The translator only appends to the log and leaves the region alone; it
    writes one record per [backend_argument] entry, and the error records
    are the malformed entries, each once, in the order of the list. *)
Theorem build_cache_config_logs_malformed (conf : ConfigOpts) (w : world) :
  ∃ evs d,
    _build_cache_config conf w
    = (World (region_obj w) (events w ++ evs)%list, Ok d) ∧
    error_log evs
    = filter (λ a, ¬ well_formed a) (backend_argument (cache conf)) ∧
    length evs = length (backend_argument (cache conf)).
Proof.
  rewrite build_cache_config_unfold. cbv zeta.
  match goal with
  | |- context [backend_arguments ?p ?l ?d0 w] =>
      destruct (backend_arguments_log p l d0 w)
        as (evs & d' & Hrun & Hlog & Hlen & _)
  end.
  rewrite Hrun, memcache_arguments_run. by eexists evs, _.
Qed.

(** Without a well-formed entry the resolved dictionary holds the backend
    name, the expiration time, [url] from [memcache_servers] and the five
    legacy options, and nothing else. *)
Theorem build_cache_config_no_arguments (conf : ConfigOpts) (w : world) :
  Forall (λ a, ¬ well_formed a) (backend_argument (cache conf)) →
  (_build_cache_config conf w).2
  = Ok (let c := cache conf in
        let prefix := config_prefix c in
        <[prefix +:+ ".arguments." +:+ "pool_connection_get_timeout" :=
            memcache_pool_connection_get_timeout c]>
          (<[prefix +:+ ".arguments." +:+ "pool_unused_timeout" :=
               memcache_pool_unused_timeout c]>
             (<[prefix +:+ ".arguments." +:+ "pool_maxsize" :=
                  memcache_pool_maxsize c]>
                (<[prefix +:+ ".arguments." +:+ "socket_timeout" :=
                     memcache_socket_timeout c]>
                   (<[prefix +:+ ".arguments." +:+ "dead_retry" :=
                        memcache_dead_retry c]>
                      (<[prefix +:+ ".arguments.url" := memcache_servers c]>
                         (<[prefix +:+ ".expiration_time" :=
                              expiration_time c]>
                            (<[prefix +:+ ".backend" := VStr (backend c)]>
                               ∅)))))))).
Proof.
  intros Hall. rewrite build_cache_config_unfold. cbv zeta.
  match goal with
  | |- context [backend_arguments ?p ?l ?d0 w] =>
      destruct (backend_arguments_log p l d0 w)
        as (evs & d' & Hrun & _ & _ & Hsame)
  end.
  rewrite Hrun, memcache_arguments_run, (Hsame Hall). simpl.
  unfold setdefault.
  rewrite lookup_insert_ne by key_ne. rewrite lookup_insert_ne by key_ne.
  by rewrite lookup_empty.
Qed.

Lemma build_cache_config_no_arguments_witness :
  ∃ d,
    (_build_cache_config
       (conf_of (with_backend_argument ["nocolon"] default_cache_opts))
       fresh_world).2 = Ok d ∧
    d !! "cache.arguments.url" = Some (VList [VStr "localhost:11211"]) ∧
    size d = 8%nat.
Proof.
  eexists. split.
  - apply (build_cache_config_no_arguments
             (conf_of (with_backend_argument ["nocolon"] default_cache_opts))
             fresh_world).
    repeat constructor. unfold well_formed. simpl. discriminate.
  - split; vm_compute; reflexivity.
Defined.

(** Every key of the resolved dictionary is [<prefix>.backend],
    [<prefix>.expiration_time] or an argument key [<prefix>.arguments.<name>];
    the first two hold the configured backend name and expiration time. *)
Theorem build_cache_config_keys (conf : ConfigOpts) (w : world) :
  ∃ w' d,
    _build_cache_config conf w = (w', Ok d) ∧
    d !! (config_prefix (cache conf) +:+ ".backend")
    = Some (VStr (backend (cache conf))) ∧
    d !! (config_prefix (cache conf) +:+ ".expiration_time")
    = Some (expiration_time (cache conf)) ∧
    (∀ k, is_Some (d !! k) →
          k = config_prefix (cache conf) +:+ ".backend" ∨
          k = config_prefix (cache conf) +:+ ".expiration_time" ∨
          ∃ name, k = config_prefix (cache conf) +:+ ".arguments." +:+ name).
Proof.
  destruct (build_cache_config_run conf w)
    as (evs & d & Hrun & Hb & He & _).
  eexists _, d. split; [exact Hrun|]. split; [exact Hb|]. split; [exact He|].
  intros k Hk.
  destruct (strip_prefix (config_prefix (cache conf) +:+ ".arguments.") k)
    as [name|] eqn:Hstrip.
  { right. right. exists name. apply strip_prefix_Some in Hstrip.
    by rewrite append_assoc in Hstrip. }
  assert (∀ n, k ≠ config_prefix (cache conf) +:+ ".arguments." +:+ n)
    as Hne.
  { intros n ->.
    assert (strip_prefix (config_prefix (cache conf) +:+ ".arguments.")
              (config_prefix (cache conf) +:+ ".arguments." +:+ n)
            = Some n) as H
      by (apply strip_prefix_Some; by rewrite append_assoc).
    congruence. }
  rewrite build_cache_config_unfold in Hrun. cbv zeta in Hrun.
  match type of Hrun with
  | context [backend_arguments ?p ?l ?d0 w] =>
      destruct (backend_arguments_run p l d0 w)
        as (evs' & d' & Hrun' & _ & Hother)
  end.
  rewrite Hrun', memcache_arguments_run in Hrun.
  injection Hrun as _ <-.
  repeat (rewrite lookup_insert_ne in Hk
            by (intros H; symmetry in H; by apply Hne in H)).
  rewrite setdefault_lookup in Hk.
  rewrite decide_False in Hk
    by (change (config_prefix (cache conf) +:+ ".arguments.url")
          with (config_prefix (cache conf) +:+ ".arguments." +:+ "url");
        intros H; symmetry in H; by apply Hne in H).
  rewrite (Hother k Hne) in Hk.
  destruct (decide (k = config_prefix (cache conf) +:+ ".expiration_time"))
    as [->|Hke]; [by right; left|].
  destruct (decide (k = config_prefix (cache conf) +:+ ".backend"))
    as [->|Hkb]; [by left|].
  rewrite lookup_insert_ne, lookup_insert_ne, lookup_empty in Hk by done.
  by destruct Hk.
Qed.

(** The translator invents no argument: an entry of the resolved dictionary
    under a name other than the five legacy names is the text after the first
    colon of a [name:value] entry of [backend_argument], or, for [url] only,
    [memcache_servers]. *)
Theorem build_cache_config_argument_provenance
    (conf : ConfigOpts) (w : world) :
  ∃ w' d,
    _build_cache_config conf w = (w', Ok d) ∧
    ∀ name v,
      name ∉ memcache_args →
      d !! (config_prefix (cache conf) +:+ ".arguments." +:+ name) = Some v →
      (∃ value, v = VStr value ∧
                (name +:+ ":" +:+ value) ∈ backend_argument (cache conf)) ∨
      (name = "url" ∧ v = memcache_servers (cache conf)).
Proof.
  destruct (build_cache_config_run conf w)
    as (evs & d & Hrun & _ & _ & Harg).
  eexists _, d. split; [exact Hrun|].
  intros name v Hname Hv. rewrite Harg in Hv. unfold resolved_argument in Hv.
  rewrite decide_False in Hv by done.
  destruct (supplied _ _) as [value|] eqn:Hsup.
  - left. exists value. injection Hv as <-. split; [done|].
    by apply supplied_Some_elem.
  - case_decide as Hurl; [|done]. right. by injection Hv as <-.
Qed.

Lemma not_memcache_arg_a : "a" ∉ memcache_args.
Proof.
  unfold memcache_args. rewrite !not_elem_of_cons.
  repeat split; try discriminate. apply not_elem_of_nil.
Qed.

Lemma build_cache_config_argument_provenance_witness :
  ∃ d,
    (_build_cache_config conf_duplicate fresh_world).2 = Ok d ∧
    ("a:2" ∈ backend_argument (cache conf_duplicate) ∨
     VStr "2" = memcache_servers (cache conf_duplicate)).
Proof.
  destruct (build_cache_config_argument_provenance conf_duplicate fresh_world)
    as (w' & d & Hrun & Hprov).
  exists d. split; [by rewrite Hrun|].
  destruct (build_cache_config_run conf_duplicate fresh_world)
    as (evs & d2 & Hrun2 & _ & _ & Harg).
  rewrite Hrun in Hrun2. injection Hrun2 as _ <-.
  destruct (Hprov "a" (VStr "2")) as [(value & Hv & Hin)|[_ Hs]].
  - apply not_memcache_arg_a.
  - exact (Harg "a").
  - left. injection Hv as <-. exact Hin.
  - right. exact Hs.
Defined.

Lemma build_cache_config_keys_witness :
  ∃ d,
    (_build_cache_config conf_duplicate fresh_world).2 = Ok d ∧
    ("cache.arguments.a" = "cache.backend" ∨
     "cache.arguments.a" = "cache.expiration_time" ∨
     ∃ name, "cache.arguments.a" = "cache" +:+ ".arguments." +:+ name).
Proof.
  destruct (build_cache_config_keys conf_duplicate fresh_world)
    as (w' & d & Hrun & _ & _ & Hkeys).
  exists d. split; [by rewrite Hrun|].
  destruct (build_cache_config_run conf_duplicate fresh_world)
    as (evs & d2 & Hrun2 & _ & _ & Harg).
  rewrite Hrun in Hrun2. injection Hrun2 as _ <-.
  apply (Hkeys "cache.arguments.a").
  exists (VStr "2"). exact (Harg "a").
Defined.

(** ** The key mangler, continued *)




Lemma be_bytes_range (n : nat) (x : Z) :
  Forall (λ b, 0 ≤ b < 256) (sha1.be_bytes n x).
Proof.
  induction n as [|n IH]; simpl; constructor; [|done].
  change 255 with (Z.ones 8). rewrite Z.land_ones by lia.
  apply Z.mod_pos_bound. lia.
Qed.

Lemma digest_range (msg : list Z) :
  Forall (λ b, 0 ≤ b < 256) (sha1.digest msg).
Proof.
  unfold sha1.digest. cbv zeta.
  repeat (apply Forall_app; split); apply be_bytes_range.
Qed.

Lemma hex_digit_alphabet (n : Z) :
  0 ≤ n < 16 → sha1.hex_digit n ∈ hex_alphabet.
Proof.
  intros Hn.
  assert (n = 0 ∨ n = 1 ∨ n = 2 ∨ n = 3 ∨ n = 4 ∨ n = 5 ∨ n = 6 ∨ n = 7 ∨
          n = 8 ∨ n = 9 ∨ n = 10 ∨ n = 11 ∨ n = 12 ∨ n = 13 ∨ n = 14 ∨
          n = 15) as H by lia.
  apply list_elem_of_In.
  repeat (destruct H as [->|H]; [vm_compute; tauto|]).
  subst n. vm_compute. tauto.
Qed.

Lemma hex_alphabet_all (bs : list Z) :
  Forall (λ b, 0 ≤ b < 256) bs →
  Forall (λ a, a ∈ hex_alphabet) (list_ascii_of_string (sha1.hex bs)).
Proof.
  induction 1 as [|b bs Hb _ IH]; simpl; [constructor|].
  constructor; [|constructor; [|done]].
  - apply hex_digit_alphabet. rewrite Z.shiftr_div_pow2 by lia.
    change (2 ^ 4) with 16. split.
    + apply Z.div_pos; lia.
    + apply Z.div_lt_upper_bound; lia.
  - apply hex_digit_alphabet. change 15 with (Z.ones 4).
    rewrite Z.land_ones by lia. apply Z.mod_pos_bound. lia.
Qed.

(** Whatever the key, a mangled key is forty characters long and made of
    the digits and the lower-case letters [a] to [f] only. *)
Theorem sha1_mangle_key_hexadecimal (k : key) (digest : string) :
  _sha1_mangle_key k = Ok digest →
  String.length digest = 40%nat ∧
  Forall (λ a, a ∈ hex_alphabet) (list_ascii_of_string digest).
Proof.
  intros Hk.
  assert (∃ b, digest = sha1.hexdigest b) as [b ->].
  { unfold _sha1_mangle_key, key_encode in Hk. destruct k as [s|b|v].
    - rewrite encode_utf8_xmlcharrefreplace in Hk. simpl in Hk.
      injection Hk as <-. by eexists.
    - simpl in Hk. injection Hk as <-. by eexists.
    - done. }
  split; [apply hexdigest_length|].
  apply hex_alphabet_all, digest_range.
Qed.

Lemma sha1_mangle_key_hexadecimal_witness :
  ∃ digest,
    _sha1_mangle_key (KStr [233; 55357]) = Ok digest ∧
    String.length digest = 40%nat ∧
    Forall (λ a, a ∈ hex_alphabet) (list_ascii_of_string digest).
Proof.
  eexists. split; [reflexivity|].
  apply (sha1_mangle_key_hexadecimal (KStr [233; 55357])). reflexivity.
Defined.

(** ** Region configuration, continued *)












(** ** The functions given to the memoization decorator *)

(** [should_cache] looks the group up only when caching is enabled: a group
    that is not registered raises [AttributeError] then, and goes unnoticed
    when caching is disabled; [get_expiration_time] always looks it up. *)
Theorem unregistered_group_raises (conf : ConfigOpts) (group : string) :
  groups conf !! group = None →
  (∀ value, _get_should_cache_fn conf group value
            = if enabled (cache conf) then Raise AttributeError
              else Ok (VBool false)) ∧
  _get_expiration_time_fn conf group tt = Raise AttributeError.
Proof.
  intros Hg.
  unfold _get_should_cache_fn, should_cache, _get_expiration_time_fn,
    get_expiration_time, getattr_group.
  rewrite Hg. split; [|done]. intros value.
  by destruct (enabled (cache conf)).
Qed.

Lemma unregistered_group_raises_witness :
  _get_should_cache_fn (conf_groups true) "assignment" VNone
  = Raise AttributeError
  ∧ _get_expiration_time_fn (conf_groups false) "assignment" tt
    = Raise AttributeError.
Proof.
  split.
  - apply (proj1 (unregistered_group_raises (conf_groups true) "assignment"
                    eq_refl) VNone).
  - apply (proj2 (unregistered_group_raises (conf_groups false) "assignment"
                    eq_refl)).
Defined.

(** The decorator's [should_cache] always reads the [caching] option of
    [group], whatever [expiration_group] is; its [get_expiration_time] reads
    the [cache_time] option of [expiration_group] when one is given and of
    [group] otherwise, [None] standing for an option that is not defined,
    and does so whether or not caching is enabled. *)
Theorem memoization_decorator_groups
    (conf : ConfigOpts) (group : string) (g : gmap string pyval) :
  groups conf !! group = Some g →
  memoize.get_expiration_time (get_memoization_decorator conf group None) tt
  = Ok (default VNone (g !! "cache_time")) ∧
  (∀ eg ge,
     groups conf !! eg = Some ge →
     memoize.get_expiration_time
       (get_memoization_decorator conf group (Some eg)) tt
     = Ok (default VNone (ge !! "cache_time"))) ∧
  (∀ eg value,
     memoize.should_cache (get_memoization_decorator conf group eg) value
     = if enabled (cache conf)
       then Ok (default (VBool true) (g !! "caching"))
       else Ok (VBool false)).
Proof.
  intros Hg.
  unfold get_memoization_decorator, _get_expiration_time_fn,
    get_expiration_time, _get_should_cache_fn, should_cache, getattr_group.
  simpl. split; [by rewrite Hg|]. split.
  - intros eg ge Hge. by rewrite Hge.
  - intros eg value. rewrite Hg. by destruct (enabled (cache conf)).
Qed.

Lemma memoization_decorator_groups_witness :
  memoize.get_expiration_time
    (get_memoization_decorator conf_cache_time "token" None) tt
  = Ok VNone
  ∧ memoize.get_expiration_time
      (get_memoization_decorator conf_cache_time "token" (Some "identity")) tt
    = Ok (VInt 60)
  ∧ memoize.should_cache
      (get_memoization_decorator conf_cache_time "token" (Some "identity"))
      VNone
    = Ok (VBool false).
Proof.
  destruct (memoization_decorator_groups conf_cache_time "token"
              {["caching" := VBool false]} eq_refl) as (H1 & H2 & H3).
  split; [exact H1|]. split.
  - exact (H2 "identity" {["cache_time" := VInt 60]} eq_refl).
  - exact (H3 (Some "identity") VNone).
Defined.

(** ** The debug proxy *)

(** The debug proxy is transparent: each of its six operations leaves the
    proxied backend in the state the proxied operation leaves it in and
    raises what it raises; [get], [get_multi] and [set] return what the
    proxied operation returns, [set_multi], [delete] and [delete_multi]
    return [None]. *)
Theorem debug_proxy_transparent {S : Type}
    (proxied : CacheBackend.api S) (st : S) :
  (∀ key,
     state_after (DebugProxy.get proxied key st)
     = state_after (CacheBackend.get proxied key st) ∧
     returned (DebugProxy.get proxied key st)
     = returned (CacheBackend.get proxied key st)) ∧
  (∀ keys,
     state_after (DebugProxy.get_multi proxied keys st)
     = state_after (CacheBackend.get_multi proxied keys st) ∧
     returned (DebugProxy.get_multi proxied keys st)
     = returned (CacheBackend.get_multi proxied keys st)) ∧
  (∀ key value,
     state_after (DebugProxy.set proxied key value st)
     = state_after (CacheBackend.set proxied key value st) ∧
     returned (DebugProxy.set proxied key value st)
     = returned (CacheBackend.set proxied key value st)) ∧
  (∀ keys,
     state_after (DebugProxy.set_multi proxied keys st)
     = state_after (CacheBackend.set_multi proxied keys st) ∧
     returned (DebugProxy.set_multi proxied keys st)
     = returned_None (returned (CacheBackend.set_multi proxied keys st))) ∧
  (∀ key,
     state_after (DebugProxy.delete proxied key st)
     = state_after (CacheBackend.delete proxied key st) ∧
     returned (DebugProxy.delete proxied key st)
     = returned_None (returned (CacheBackend.delete proxied key st))) ∧
  (∀ keys,
     state_after (DebugProxy.delete_multi proxied keys st)
     = state_after (CacheBackend.delete_multi proxied keys st) ∧
     returned (DebugProxy.delete_multi proxied keys st)
     = returned_None (returned (CacheBackend.delete_multi proxied keys st))).
Proof.
  unfold DebugProxy.get, DebugProxy.get_multi, DebugProxy.set,
    DebugProxy.set_multi, DebugProxy.delete, DebugProxy.delete_multi,
    B_bind, B_ret, _LOG_debug.
  repeat split; intros; simpl;
    match goal with
    | |- context [returned ?o] => by destruct (returned o)
    end.
Qed.

(** What the debug proxy logs and when: [get], [get_multi] and [delete]
    write their record after the proxied call and only if it returns, the
    reads with the value they return; [set], [set_multi] and [delete_multi]
    write theirs before the proxied call, so it is in the log even when that
    call raises. *)
Theorem debug_proxy_log {S : Type} (proxied : CacheBackend.api S) (st : S) :
  (∀ key,
     logged (DebugProxy.get proxied key st)
     = (logged (CacheBackend.get proxied key st)
        ++ match returned (CacheBackend.get proxied key st) with
           | Ok value => [CACHE_GET key value]
           | Raise _ => []
           end)%list) ∧
  (∀ keys,
     logged (DebugProxy.get_multi proxied keys st)
     = (logged (CacheBackend.get_multi proxied keys st)
        ++ match returned (CacheBackend.get_multi proxied keys st) with
           | Ok values => [CACHE_GET_MULTI keys values]
           | Raise _ => []
           end)%list) ∧
  (∀ key value,
     logged (DebugProxy.set proxied key value st)
     = CACHE_SET key value :: logged (CacheBackend.set proxied key value st)) ∧
  (∀ keys,
     logged (DebugProxy.set_multi proxied keys st)
     = CACHE_SET_MULTI keys
       :: logged (CacheBackend.set_multi proxied keys st)) ∧
  (∀ key,
     logged (DebugProxy.delete proxied key st)
     = (logged (CacheBackend.delete proxied key st)
        ++ match returned (CacheBackend.delete proxied key st) with
           | Ok _ => [CACHE_DELETE key]
           | Raise _ => []
           end)%list) ∧
  (∀ keys,
     logged (DebugProxy.delete_multi proxied keys st)
     = CACHE_DELETE_MULTI keys
       :: logged (CacheBackend.delete_multi proxied keys st)).
Proof.
  unfold DebugProxy.get, DebugProxy.get_multi, DebugProxy.set,
    DebugProxy.set_multi, DebugProxy.delete, DebugProxy.delete_multi,
    B_bind, B_ret, _LOG_debug.
  repeat split; intros; simpl;
    match goal with
    | |- context [returned ?o] =>
        destruct (returned o); simpl; by rewrite ?app_nil_r
    end.
Qed.

(** Through the debug proxy a dictionary backend still returns what was
    stored, and the log tells the story: the write, then the read with its
    value. *)
Example debug_proxy_set_then_get :
  let dp := DebugProxy.wrap dict_backend in
  let o := B_bind (CacheBackend.set dp (VStr "k") (VInt 7))
                  (fun _ => CacheBackend.get dp (VStr "k")) ∅ in
  returned o = Ok (VInt 7) ∧
  logged o = [CACHE_SET (VStr "k") (VInt 7); CACHE_GET (VStr "k") (VInt 7)].
Proof. split; reflexivity. Qed.

(** ** Backend registration *)

(** After the registration loop of [configure] each of the four names of
    [_BACKENDS] leads to its module and class, every other name leads where
    it led before, and running the loop again changes nothing. *)
Theorem register_backends_registry (loader : gmap string (string * string)) :
  (∀ name modulepath objname,
     (name, modulepath, objname) ∈ _BACKENDS →
     register_backends loader !! name = Some (modulepath, objname)) ∧
  (∀ name,
     name ∉ (λ b, b.1.1) <$> _BACKENDS →
     register_backends loader !! name = loader !! name) ∧
  register_backends (register_backends loader) = register_backends loader.
Proof.
  unfold register_backends, register_backend, _BACKENDS. simpl.
  split; [|split].
  - intros name modulepath objname Hin.
    repeat (apply elem_of_cons in Hin as [Hin|Hin];
            [injection Hin as -> -> ->; by simplify_map_eq|]).
    by apply elem_of_nil in Hin.
  - intros name Hname.
    repeat (apply not_elem_of_cons in Hname as [? Hname]).
    by simplify_map_eq.
  - apply map_eq. intros i.
    destruct (decide (i = "oslo_cache.dict")) as [->|?];
      [by simplify_map_eq|].
    destruct (decide (i = "oslo_cache.memcache_pool")) as [->|?];
      [by simplify_map_eq|].
    destruct (decide (i = "oslo_cache.mongo")) as [->|?];
      [by simplify_map_eq|].
    destruct (decide (i = "oslo_cache.noop")) as [->|?];
      [by simplify_map_eq|].
    by simplify_map_eq.
Qed.

Lemma register_backends_registry_witness :
  register_backends ∅ !! "oslo_cache.dict"
  = Some ("oslo_cache.backends.dictionary", "DictCacheBackend")
  ∧ register_backends {["dogpile.cache.null" := ("m", "C")]}
    !! "dogpile.cache.null" = Some ("m", "C").
Proof.
  split.
  - apply (proj1 (register_backends_registry ∅)).
    apply list_elem_of_In. simpl. tauto.
  - rewrite (proj1 (proj2 (register_backends_registry
                             {["dogpile.cache.null" := ("m", "C")]}))).
    + reflexivity.
    + simpl. rewrite !not_elem_of_cons.
      repeat split; try discriminate. apply not_elem_of_nil.
Defined.
